(** * lambda_handler.py: registering Adobe Analytics data feed files in the
      Glue Data Catalog.

    A shallow embedding of [src/main/python/lambda_handler.py].  The handler
    talks to two services (Glue and S3), reads the clock and prints; these
    interactions are the constructors of a small free monad [prog], so that
    the same program text can be run against an arbitrary environment
    (including one in which other reconcilers interfere between two calls)
    and against a reference in-memory catalog. *)

From Stdlib Require Import ZArith NArith List Bool Lia PrimFloat.
From Stdlib Require Ascii.
From stdpp Require Import base option list strings gmap sets.

Set Default Proof Using "Type".
Set Warnings "-register-all".

(** ** Python values *)

(** A Python [str] is a sequence of Unicode code points. *)
Definition char := N.
Definition str := list N.

(** A [str] literal of the source, written as a Rocq string (the literals of
    the source are all ASCII). *)
Definition lit (s : string) : str :=
  map Ascii.N_of_ascii (String.list_ascii_of_string s).
Arguments lit s%_string.

Definition bytes := list Byte.byte.

(** The values that occur in the request payloads: [str], [float], [list]
    and [dict] (insertion ordered, as dict literals are). *)
Inductive pyval : Type :=
| PStr (s : str)
| PFloat (f : float)
| PList (l : list pyval)
| PDict (d : list (str * pyval)).

Definition pydict := list (str * pyval).

(** [d.get(k)]: the value stored under key [k], if the key is present. *)
Fixpoint dict_get {V : Type} (k : str) (d : list (str * V)) : option V :=
  match d with
  | [] => None
  | (k', v) :: d' => if decide (k = k') then Some v else dict_get k d'
  end.

(** ** The parts of the Python runtime the handler uses *)

(** [str.isspace] on one character, which is what [str.strip()] removes:
    the ASCII controls 0x09-0x0D and 0x1C-0x1F, the space, and the Unicode
    White_Space characters. *)
Definition isspace (c : char) : bool :=
  ((9 <=? c) && (c <=? 13) || (28 <=? c) && (c <=? 32)
   || (c =? 133) || (c =? 160) || (c =? 5760)
   || (8192 <=? c) && (c <=? 8202)
   || (c =? 8232) || (c =? 8233) || (c =? 8239) || (c =? 8287)
   || (c =? 12288))%N.

Fixpoint lstrip_by (p : char -> bool) (s : str) : str :=
  match s with
  | [] => []
  | c :: s' => if p c then lstrip_by p s' else s
  end.

Definition rstrip_by (p : char -> bool) (s : str) : str :=
  rev (lstrip_by p (rev s)).

Definition in_chars (chars : str) (c : char) : bool := existsb (N.eqb c) chars.

(** [s.lstrip(chars)], [s.rstrip(chars)] and [s.strip()]. *)
Definition lstrip (chars : str) (s : str) : str := lstrip_by (in_chars chars) s.
Definition rstrip (chars : str) (s : str) : str := rstrip_by (in_chars chars) s.
Definition strip (s : str) : str := rstrip_by isspace (lstrip_by isspace s).

(** [s.split(sep)] for a separator of one character (the source splits on
    the tab character). *)
Fixpoint split (sep : char) (s : str) : list str :=
  match s with
  | [] => [[]]
  | c :: s' =>
      if (c =? sep)%N then [] :: split sep s'
      else match split sep s' with
           | w :: ws => (c :: w) :: ws
           | [] => [[c]]
           end
  end.

Definition tab : char := 9%N.
Definition slash : char := 47%N.

Definition startswith_char (c : char) (s : str) : bool :=
  match s with
  | c' :: _ => (c' =? c)%N
  | [] => false
  end.

Definition endswith_char (c : char) (s : str) : bool :=
  startswith_char c (rev s).

(** [os.path.join(a, *p)] of posixpath, one component [b] at a time: a
    component that starts with the separator restarts the path; a separator
    is inserted unless the path so far is empty or already ends with one. *)
Definition join_component (path b : str) : str :=
  if startswith_char slash b then b
  else if bool_decide (path = []) || endswith_char slash path
       then path ++ b
       else path ++ [slash] ++ b.

Definition os_path_join (a : str) (p : list str) : str :=
  fold_left join_component p a.

(** The result of [urllib.parse.urlparse]. *)
Record url_object := {
  scheme : str;
  netloc : str;
  path : str;
  params : str;
  query : str;
  fragment : str;
}.

(** ** Exceptions *)

Inductive exn : Type :=
| EntityNotFoundException
| AlreadyExistsException
| AccessDeniedException
| InvalidInputException
| InternalServiceException
| OperationTimeoutException
| ClientError (code : str)
| BadGzipFile
| UnicodeDecodeError
| KeyError (key : str).

(** ** Requests to the Glue client *)

Record glue_client := { region_name : str }.

Inductive glue_call : Type :=
| get_database (Name : str)
| create_database (DatabaseInput : pydict)
| get_table (DatabaseName Name : str)
| create_table (DatabaseName : str) (TableInput : pydict)
| get_partition (DatabaseName TableName : str) (PartitionValues : list str)
| create_partition (DatabaseName TableName : str) (PartitionInput : pydict).

(** ** Programs *)

(** A program returns, raises, or performs one interaction and continues
    with the answer.  An interaction with a service is answered by an
    exception or by a response. *)
Inductive prog (A : Type) : Type :=
| Ret (a : A)
| Raise (e : exn)
| Glue (client : glue_client) (c : glue_call) (k : exn + unit -> prog A)
| S3GetObject (Bucket Key : str) (k : exn + bytes -> prog A)
| TimeTime (k : float -> prog A)
| Print (args : list pyval) (k : prog A).
Arguments Ret {A} a.
Arguments Raise {A} e.
Arguments Glue {A} client c k.
Arguments S3GetObject {A} Bucket Key k.
Arguments TimeTime {A} k.
Arguments Print {A} args k.

Fixpoint bind {A B : Type} (p : prog A) (f : A -> prog B) : prog B :=
  match p with
  | Ret a => f a
  | Raise e => Raise e
  | Glue cl c k => Glue cl c (fun r => bind (k r) f)
  | S3GetObject b key k => S3GetObject b key (fun r => bind (k r) f)
  | TimeTime k => TimeTime (fun t => bind (k t) f)
  | Print args k => Print args (bind k f)
  end.

Notation "x <- p ;; q" := (bind p (fun x => q))
  (at level 100, p at next level, right associativity,
   format "'[v' x  <-  p  ;;  '/' q ']'").
Notation "p ;;; q" := (bind p (fun _ => q))
  (at level 100, right associativity,
   format "'[v' p  ;;;  '/' q ']'").

(** [try: p  except <those e with h e = Some q>: q].  An exception raised
    inside the handler [q] is not caught again. *)
Fixpoint try_except {A : Type} (p : prog A) (h : exn -> option (prog A)) : prog A :=
  match p with
  | Ret a => Ret a
  | Raise e => match h e with Some q => q | None => Raise e end
  | Glue cl c k => Glue cl c (fun r => try_except (k r) h)
  | S3GetObject b key k => S3GetObject b key (fun r => try_except (k r) h)
  | TimeTime k => TimeTime (fun t => try_except (k t) h)
  | Print args k => Print args (try_except k h)
  end.

(** A call whose exception, if any, is raised in the caller. *)
Definition or_raise {A : Type} (r : exn + A) : prog A :=
  match r with
  | inl e => Raise e
  | inr a => Ret a
  end.

Definition glue (cl : glue_client) (c : glue_call) : prog unit := Glue cl c or_raise.
Definition s3_get_object (Bucket Key : str) : prog bytes := S3GetObject Bucket Key or_raise.
Definition time_time : prog float := TimeTime Ret.
Definition print (args : list pyval) : prog unit := Print args (Ret tt).

(** [for x in l: body x] *)
Fixpoint for_each {A : Type} (l : list A) (body : A -> prog unit) : prog unit :=
  match l with
  | [] => Ret tt
  | x :: l' => body x ;;; for_each l' body
  end.

(** [d[k]] *)
Definition getitem (d : list (str * str)) (k : str) : prog str :=
  match dict_get k d with
  | Some v => Ret v
  | None => Raise (KeyError k)
  end.

(** ** The handler *)

Definition hit_data : str := lit "hit_data".

(** [{"Type": "string", "Name": name}] *)
Definition column (name : str) : pyval :=
  PDict [(lit "Type", PStr (lit "string")); (lit "Name", PStr name)].

(** Dynamically build a Data Catalog storage descriptor with the desired
    columns and S3 location. *)
Definition storage_descriptor (columns : list pyval) (location : str) : pyval :=
  PDict
    [(lit "Columns", PList columns);
     (lit "Location", PStr location);
     (lit "InputFormat", PStr (lit "org.apache.hadoop.mapred.TextInputFormat"));
     (lit "OutputFormat",
      PStr (lit "org.apache.hadoop.hive.ql.io.HiveIgnoreKeyTextOutputFormat"));
     (lit "SerdeInfo",
      PDict
        [(lit "SerializationLibrary",
          PStr (lit "org.apache.hadoop.hive.serde2.OpenCSVSerde"));
         (lit "Parameters", PDict [(lit "separatorChar", PStr [tab])])]);
     (lit "BucketColumns", PList []);
     (lit "Parameters", PDict [])].

Definition generic_lookup_types : list str :=
  [lit "browser";
   lit "browser_type";
   lit "color_depth";
   lit "connection_type";
   lit "country";
   lit "javascript_version";
   lit "languages";
   lit "operating_systems";
   lit "plugins";
   lit "resolution";
   lit "referrer_type";
   lit "search_engines"].

(** The handler of an exception clause [except EntityNotFoundException]. *)
Definition except_EntityNotFound {A : Type} (q : prog A) (e : exn) : option (prog A) :=
  match e with
  | EntityNotFoundException => Some q
  | _ => None
  end.

Section Handler.

(** Library functions the handler composes and that are left abstract:
    [urllib.parse.urlparse], reading a [GzipFile] to its end, and
    [bytes.decode('utf-8')].  The last two can raise. *)
Variable urlparse : str -> url_object.
Variable gunzip : bytes -> exn + bytes.
Variable decode_utf8 : bytes -> exn + str.

(** Retrieve an S3 file.  The source returns the streaming body of the
    response and its one caller reads it to the end at once; here the
    answer of [S3GetObject] is already the content read. *)
Definition get_s3_file (s3_uri : str) : prog bytes :=
  let url_object := urlparse s3_uri in
  let bucket := netloc url_object in
  let key := lstrip (lit "/") (path url_object) in
  s3_get_object bucket key.

(** Create the specified Glue database if it does not exist. *)
Definition create_db (glue_client : glue_client) (database_name : str) : prog unit :=
  try_except
    (glue glue_client (get_database database_name))
    (except_EntityNotFound
       (print [PStr (lit "Creating database: " ++ database_name)] ;;;
        glue glue_client (create_database [(lit "Name", PStr database_name)]))).

Definition header_file (s3_report_base partition_date : str) : str :=
  os_path_join s3_report_base
    [lit "rawtsv"; lit "column_headers"; lit "dt=" ++ partition_date;
     lit "column_headers.tsv.gz"].

(** Retrieve the Adobe Analytics Data Feed column headers file from S3 and
    return it as a list. *)
Definition get_headers (s3_report_base partition_date : str) : prog (list str) :=
  body <- get_s3_file (header_file s3_report_base partition_date) ;;
  raw <- or_raise (gunzip body) ;;
  got_text <- or_raise (decode_utf8 raw) ;;
  Ret (split tab (strip got_text)).

(** Test if a specific table exists. *)
Definition does_table_exist (glue_client : glue_client) (database table : str) : prog bool :=
  try_except
    (glue glue_client (get_table database table) ;;; Ret true)
    (except_EntityNotFound (Ret false)).

(** Test if a specific partition exists. *)
Definition does_partition_exist (glue_client : glue_client) (database table : str)
    (part_values : list str) : prog bool :=
  try_except
    (glue glue_client (get_partition database table part_values) ;;; Ret true)
    (except_EntityNotFound (Ret false)).

(** Create the base Glue table if it does not exist. *)
Definition create_glue_table (glue_client : glue_client)
    (database_name s3_report_base partition_date : str) : prog unit :=
  exists_ <- does_table_exist glue_client database_name hit_data ;;
  if exists_ : bool then Ret tt
  else
    print [PStr (lit "Creating hit_data table using partition " ++ partition_date)] ;;;
    headers <- get_headers s3_report_base partition_date ;;
    let sd := storage_descriptor (map column headers)
                (s3_report_base ++ lit "/rawtsv/hit_data/") in
    now <- time_time ;;
    glue glue_client
      (create_table database_name
         [(lit "Name", PStr hit_data);
          (lit "StorageDescriptor", sd);
          (lit "PartitionKeys",
           PList [PDict [(lit "Name", PStr (lit "dt")); (lit "Type", PStr (lit "string"))]]);
          (lit "TableType", PStr (lit "EXTERNAL_TABLE"));
          (lit "Parameters", PDict []);
          (lit "LastAccessTime", PFloat now)]).

(** Add a partition to the hit_data table for a specific date. *)
Definition add_hitdata_partition (glue_client : glue_client)
    (database_name s3_report_base partition_date : str) : prog unit :=
  exists_ <- does_partition_exist glue_client database_name hit_data [partition_date] ;;
  if exists_ : bool then Ret tt
  else
    headers <- get_headers s3_report_base partition_date ;;
    print [PStr (lit "Creating partition " ++ partition_date)] ;;;
    glue glue_client
      (create_partition database_name hit_data
         [(lit "Values", PList [PStr partition_date]);
          (lit "StorageDescriptor",
           storage_descriptor (map column headers)
             (s3_report_base ++ lit "/rawtsv/hit_data/dt=" ++ partition_date ++ lit "/"));
          (lit "Parameters", PDict [])]).

(** The body of the loop of [create_lookup_tables]. *)
Definition create_lookup_table (glue_client : glue_client)
    (database_name s3_lookup_uri lookup_name : str) : prog unit :=
  exists_ <- does_table_exist glue_client database_name lookup_name ;;
  if exists_ : bool then Ret tt
  else
    let sd := storage_descriptor [column (lit "id"); column (lit "value")]
                (s3_lookup_uri ++ lit "/" ++ lookup_name ++ lit "/") in
    now <- time_time ;;
    glue glue_client
      (create_table database_name
         [(lit "Name", PStr lookup_name);
          (lit "StorageDescriptor", sd);
          (lit "PartitionKeys", PList []);
          (lit "TableType", PStr (lit "EXTERNAL_TABLE"));
          (lit "Parameters", PDict []);
          (lit "LastAccessTime", PFloat now)]).

(** Create all the Data Catalog tables for Adobe Analytics lookup tables. *)
Definition create_lookup_tables (glue_client : glue_client)
    (database_name s3_lookup_uri : str) : prog unit :=
  for_each generic_lookup_types
    (create_lookup_table glue_client database_name s3_lookup_uri).

(** Create a Glue client for the region this job is running in. *)
Definition create_glue_client (os_environ : list (str * str)) : prog glue_client :=
  current_region <- getitem os_environ (lit "AWS_REGION") ;;
  Ret {| region_name := current_region |}.

(** The four calls that end the body of [handler], once its inputs are
    read. *)
Definition reconcile (glue_client : glue_client)
    (glue_database s3_report_base lookup_location partition_date : str) : prog unit :=
  create_db glue_client glue_database ;;;
  create_glue_table glue_client glue_database s3_report_base partition_date ;;;
  create_lookup_tables glue_client glue_database lookup_location ;;;
  add_hitdata_partition glue_client glue_database s3_report_base partition_date.

(** AWS Lambda event handler.  [os_environ] is the process environment
    that the source reads through [os.environ]; the fields of the event
    are strings. *)
Definition handler (os_environ : list (str * str)) (event : list (str * str))
    (context : pyval) : prog unit :=
  print [PStr (lit "Got event"); PDict (map (fun kv => (kv.1, PStr kv.2)) event)] ;;;
  s3_report_base <- (v <- getitem event (lit "reportBase") ;; Ret (rstrip (lit "/") v)) ;;
  lookup_location <- (v <- getitem event (lit "lookupURI") ;; Ret (rstrip (lit "/") v)) ;;
  partition_date <- getitem event (lit "reportDate") ;;
  glue_database <- getitem os_environ (lit "DB_NAME") ;;
  glue_client <- create_glue_client os_environ ;;
  reconcile glue_client glue_database s3_report_base lookup_location partition_date.

End Handler.

(** ** Running a program *)

(** What the world answers.  The state [W] is the world's own: the catalog,
    the bucket, the clock, and whatever other actors do to them between two
    interactions of the program. *)
Record environment (W : Type) := {
  env_glue : glue_client -> glue_call -> W -> (exn + unit) * W;
  env_get_object : str -> str -> W -> (exn + bytes) * W;
  env_time : W -> float * W;
}.
Arguments env_glue {W} _ _ _ _.
Arguments env_get_object {W} _ _ _ _.
Arguments env_time {W} _ _.

Inductive event : Type :=
| EvGlue (client : glue_client) (c : glue_call) (r : exn + unit)
| EvS3 (Bucket Key : str) (r : exn + bytes)
| EvTime (t : float)
| EvPrint (args : list pyval).

Record outcome (W A : Type) := {
  trace : list event;
  result : exn + A;
  final : W;
}.
Arguments trace {W A} _.
Arguments result {W A} _.
Arguments final {W A} _.

Definition observe {W A : Type} (ev : event) (o : outcome W A) : outcome W A :=
  {| trace := ev :: trace o; result := result o; final := final o |}.

Fixpoint run {W A : Type} (E : environment W) (p : prog A) (w : W) : outcome W A :=
  match p with
  | Ret a => {| trace := []; result := inr a; final := w |}
  | Raise e => {| trace := []; result := inl e; final := w |}
  | Glue cl c k =>
      let '(r, w') := env_glue E cl c w in
      observe (EvGlue cl c r) (run E (k r) w')
  | S3GetObject b key k =>
      let '(r, w') := env_get_object E b key w in
      observe (EvS3 b key r) (run E (k r) w')
  | TimeTime k =>
      let '(t, w') := env_time E w in
      observe (EvTime t) (run E (k t) w')
  | Print args k => observe (EvPrint args) (run E k w)
  end.

(** The interactions with the catalog, in order, each with its answer. *)
Definition glue_event (ev : event) : option (glue_call * (exn + unit)) :=
  match ev with
  | EvGlue _ c r => Some (c, r)
  | _ => None
  end.

Definition glue_events (tr : list event) : list (glue_call * (exn + unit)) :=
  omap glue_event tr.

(** The objects fetched from S3, in order. *)
Definition s3_event (ev : event) : option (str * str) :=
  match ev with
  | EvS3 b k _ => Some (b, k)
  | _ => None
  end.

Definition s3_fetches (tr : list event) : list (str * str) := omap s3_event tr.

(** ** The shape of a reconciliation *)

Definition as_str (v : pyval) : option str :=
  match v with
  | PStr s => Some s
  | _ => None
  end.

Definition name_of (input : pydict) : option str :=
  dict_get (lit "Name") input ≫= as_str.

Definition values_of (input : pydict) : option (list str) :=
  match dict_get (lit "Values") input with
  | Some (PList l) => mapM as_str l
  | _ => None
  end.

(** The lookup that asks for the object a create call would make. *)
Definition probe_of (c : glue_call) : option glue_call :=
  match c with
  | create_database input => get_database <$> name_of input
  | create_table db input => get_table db <$> name_of input
  | create_partition db t input => get_partition db t <$> values_of input
  | _ => None
  end.

Definition is_create (c : glue_call) : bool :=
  match c with
  | create_database _ | create_table _ _ | create_partition _ _ _ => true
  | _ => false
  end.

(** One create-if-absent step, as seen by the catalog: the probe, and a
    create call only behind a probe answered [EntityNotFoundException]. *)
Inductive step_shape (probe : glue_call) :
    list (glue_call * (exn + unit)) -> exn + unit -> Prop :=
| step_present :
    step_shape probe [(probe, inr tt)] (inr tt)
| step_probe_raises e :
    e ≠ EntityNotFoundException ->
    step_shape probe [(probe, inl e)] (inl e)
| step_absent_raises e :
    step_shape probe [(probe, inl EntityNotFoundException)] (inl e)
| step_created c :
    probe_of c = Some probe ->
    step_shape probe [(probe, inl EntityNotFoundException); (c, inr tt)] (inr tt)
| step_create_raises c e :
    probe_of c = Some probe ->
    step_shape probe [(probe, inl EntityNotFoundException); (c, inl e)] (inl e).

(** A sequence of steps, one per probe, in the order of the probes, that
    stops at the first step that raises. *)
Inductive steps_shape :
    list glue_call -> list (glue_call * (exn + unit)) -> exn + unit -> Prop :=
| steps_done :
    steps_shape [] [] (inr tt)
| steps_next p ps t ts r :
    step_shape p t (inr tt) -> steps_shape ps ts r ->
    steps_shape (p :: ps) (t ++ ts) r
| steps_abort p ps t e :
    step_shape p t (inl e) ->
    steps_shape (p :: ps) t (inl e).

(** The probes of one invocation: database, base table, lookup tables,
    partition. *)
Definition probes (glue_database partition_date : str) : list glue_call :=
  [get_database glue_database; get_table glue_database hit_data]
  ++ map (get_table glue_database) generic_lookup_types
  ++ [get_partition glue_database hit_data [partition_date]].

(** A program whose catalog interactions, in every world, are a sequence
    of create-if-absent steps for the probes [ps]. *)
Definition shaped {W : Type} (E : environment W) (ps : list glue_call)
    (p : prog unit) : Prop :=
  forall w : W,
    steps_shape ps (glue_events (trace (run E p w))) (result (run E p w)).

(** The inputs the handler reads before its first step. *)
Definition inputs_read (os_environ event : list (str * str))
    (cl : glue_client) (db base lookup date : str) : Prop :=
  exists rb lu reg,
    dict_get (lit "reportBase") event = Some rb /\
    dict_get (lit "lookupURI") event = Some lu /\
    dict_get (lit "reportDate") event = Some date /\
    dict_get (lit "DB_NAME") os_environ = Some db /\
    dict_get (lit "AWS_REGION") os_environ = Some reg /\
    cl = {| region_name := reg |} /\
    base = rstrip (lit "/") rb /\
    lookup = rstrip (lit "/") lu.

(** ** A reference catalog

    The Glue Data Catalog as one invocation sees it when nobody else writes
    to it: a lookup raises [EntityNotFoundException] exactly when the object
    is absent; a create raises [AlreadyExistsException] when the object is
    present, [EntityNotFoundException] when its parent is absent and
    [InvalidInputException] when the input names no object, and stores the
    input otherwise. *)

Record catalog := {
  databases : gset str;
  tables : gmap (str * str) pydict;
  partitions : gmap (str * str * list str) pydict;
}.

Definition catalog_call (c : glue_call) (cat : catalog) : (exn + unit) * catalog :=
  match c with
  | get_database n =>
      if decide (n ∈ databases cat) then (inr tt, cat)
      else (inl EntityNotFoundException, cat)
  | create_database input =>
      match name_of input with
      | None => (inl InvalidInputException, cat)
      | Some n =>
          if decide (n ∈ databases cat) then (inl AlreadyExistsException, cat)
          else (inr tt, {| databases := {[n]} ∪ databases cat;
                           tables := tables cat;
                           partitions := partitions cat |})
      end
  | get_table db n =>
      match tables cat !! (db, n) with
      | Some _ => (inr tt, cat)
      | None => (inl EntityNotFoundException, cat)
      end
  | create_table db input =>
      match name_of input with
      | None => (inl InvalidInputException, cat)
      | Some n =>
          if decide (db ∈ databases cat) then
            match tables cat !! (db, n) with
            | Some _ => (inl AlreadyExistsException, cat)
            | None => (inr tt, {| databases := databases cat;
                                  tables := <[(db, n) := input]> (tables cat);
                                  partitions := partitions cat |})
            end
          else (inl EntityNotFoundException, cat)
      end
  | get_partition db t vs =>
      match partitions cat !! (db, t, vs) with
      | Some _ => (inr tt, cat)
      | None => (inl EntityNotFoundException, cat)
      end
  | create_partition db t input =>
      match values_of input with
      | None => (inl InvalidInputException, cat)
      | Some vs =>
          match tables cat !! (db, t) with
          | None => (inl EntityNotFoundException, cat)
          | Some _ =>
              match partitions cat !! (db, t, vs) with
              | Some _ => (inl AlreadyExistsException, cat)
              | None => (inr tt, {| databases := databases cat;
                                    tables := tables cat;
                                    partitions := <[(db, t, vs) := input]> (partitions cat) |})
              end
          end
      end
  end.

(** The world of the reference environment: the catalog, the objects of the
    buckets by bucket and key, and the clock. *)
Record world := {
  cat : catalog;
  objects : gmap (str * str) bytes;
  clock : float;
}.

Definition reference : environment world := {|
  env_glue := fun _ c w =>
    let '(r, cat') := catalog_call c (cat w) in
    (r, {| cat := cat'; objects := objects w; clock := clock w |});
  env_get_object := fun b k w =>
    (match objects w !! (b, k) with
     | Some body => inr body
     | None => inl (ClientError (lit "NoSuchKey"))
     end, w);
  env_time := fun w =>
    (clock w, {| cat := cat w; objects := objects w; clock := (clock w + 1)%float |});
|}.

Definition empty_catalog : catalog :=
  {| databases := ∅; tables := ∅; partitions := ∅ |}.

(** ** Stand-ins for the library functions, to run examples

    [urlparse] on a URI of the shape [scheme://netloc/path] without [;],
    [?] or [#]; a [gunzip] for content stored uncompressed; and a decoder
    for ASCII content, on which UTF-8 decoding is the identity. *)

Fixpoint break_at (c : char) (s : str) : str * str :=
  match s with
  | [] => ([], [])
  | c' :: s' =>
      if (c' =? c)%N then ([], s)
      else let '(a, b) := break_at c s' in (c' :: a, b)
  end.

Definition urlparse_plain (uri : str) : url_object :=
  let '(sch, rest) := break_at 58%N uri in
  match rest with
  | 58%N :: 47%N :: 47%N :: rest' =>
      let '(nl, p) := break_at slash rest' in
      {| scheme := sch; netloc := nl; path := p;
         params := []; query := []; fragment := [] |}
  | _ =>
      {| scheme := []; netloc := []; path := uri;
         params := []; query := []; fragment := [] |}
  end.

Definition gunzip_stored (b : bytes) : exn + bytes := inr b.

Definition decode_ascii (b : bytes) : exn + str :=
  if forallb (fun x => (Byte.to_N x <? 128)%N) b
  then inr (map Byte.to_N b)
  else inl UnicodeDecodeError.

(** The content of a file, from its ASCII text. *)
Definition encode_ascii (s : str) : bytes :=
  omap Byte.of_N s.

(** ** Example inputs *)

Definition example_environ : list (str * str) :=
  [(lit "DB_NAME", lit "adobe"); (lit "AWS_REGION", lit "us-east-1")].

Definition example_event : list (str * str) :=
  [(lit "reportBase", lit "s3://bucket/feed");
   (lit "lookupURI", lit "s3://bucket/lookup");
   (lit "reportDate", lit "2024-03-01")].

Definition example_client : glue_client := {| region_name := lit "us-east-1" |}.

(** The header file [a<TAB>b<TAB>c<LF>]. *)
Definition example_headers : bytes :=
  encode_ascii (lit "a" ++ [tab] ++ lit "b" ++ [tab] ++ lit "c" ++ [10%N]).

Definition example_objects : gmap (str * str) bytes :=
  {[ (lit "bucket",
      lit "feed/rawtsv/column_headers/dt=2024-03-01/column_headers.tsv.gz")
     := example_headers ]}.

(** A new environment: nothing in the catalog, the header file in place. *)
Definition fresh : world :=
  {| cat := empty_catalog; objects := example_objects; clock := 0%float |}.


(** A world in which another reconciler wins every race: each lookup is
    answered not found and each create already exists. *)
Definition lost_race : environment unit := {|
  env_glue := fun _ c w =>
    (inl (if is_create c then AlreadyExistsException else EntityNotFoundException), w);
  env_get_object := fun _ _ w => (inr example_headers, w);
  env_time := fun w => (0%float, w);
|}.

(** A world in which the caller may read databases and nothing else. *)
Definition denied : environment unit := {|
  env_glue := fun _ c w =>
    (match c with
     | get_database _ => inr tt
     | _ => inl AccessDeniedException
     end, w);
  env_get_object := fun _ _ w => (inl (ClientError (lit "AccessDenied")), w);
  env_time := fun w => (0%float, w);
|}.

(** The probes among the calls of a trace, in order. *)
Definition probes_made (tr : list (glue_call * (exn + unit))) : list glue_call :=
  filter (fun c => is_create c = false) (tr.*1).

Definition example_handler : prog unit :=
  handler urlparse_plain gunzip_stored decode_ascii
    example_environ example_event (PDict []).

(** The create calls of a trace, in order, whatever their answer. *)
Definition creates_made (tr : list event) : list glue_call :=
  filter (fun c => is_create c = true) ((glue_events tr).*1).

(** [v[k]] for a dict [v]. *)
Definition item (k : string) (v : pyval) : option pyval :=
  match v with
  | PDict d => dict_get (lit k) d
  | _ => None
  end.

(** A table input for the lookup table [name] under [uri]: unpartitioned,
    with the two string columns [id] and [value], at [uri/name/]. *)
Definition is_lookup_table (uri name : str) (input : pydict) : Prop :=
  dict_get (lit "Name") input = Some (PStr name)
  /\ dict_get (lit "PartitionKeys") input = Some (PList [])
  /\ exists sd,
       dict_get (lit "StorageDescriptor") input = Some sd
       /\ item "Columns" sd
          = Some (PList [PDict [(lit "Type", PStr (lit "string"));
                                (lit "Name", PStr (lit "id"))];
                         PDict [(lit "Type", PStr (lit "string"));
                                (lit "Name", PStr (lit "value"))]])
       /\ item "Location" sd = Some (PStr (uri ++ lit "/" ++ name ++ lit "/")).

(** A catalog in which somebody else made a table called [browser]:
    partitioned by [year], with one column [code]. *)
Definition foreign_browser_table : pydict :=
  [(lit "Name", PStr (lit "browser"));
   (lit "StorageDescriptor",
    storage_descriptor [column (lit "code")] (lit "s3://elsewhere/browser/"));
   (lit "PartitionKeys",
    PList [PDict [(lit "Name", PStr (lit "year")); (lit "Type", PStr (lit "string"))]])].

Definition with_foreign_browser : world :=
  {| cat := {| databases := {[ lit "adobe" ]};
               tables := {[ (lit "adobe", lit "browser") := foreign_browser_table ]};
               partitions := ∅ |};
     objects := example_objects;
     clock := 0%float |}.

(** A catalog whose [hit_data] table was made from other headers than the
    bucket holds now. *)
Definition old_hit_data_table : pydict :=
  [(lit "Name", PStr hit_data);
   (lit "StorageDescriptor",
    storage_descriptor [column (lit "old")] (lit "s3://bucket/feed/rawtsv/hit_data/"));
   (lit "PartitionKeys",
    PList [PDict [(lit "Name", PStr (lit "dt")); (lit "Type", PStr (lit "string"))]])].

Definition with_old_hit_data : world :=
  {| cat := {| databases := {[ lit "adobe" ]};
               tables := {[ (lit "adobe", hit_data) := old_hit_data_table ]};
               partitions := ∅ |};
     objects := example_objects;
     clock := 0%float |}.

(** [sep.join(l)] for a separator of one character. *)
Fixpoint join (sep : char) (l : list str) : str :=
  match l with
  | [] => []
  | [w] => w
  | w :: ws => w ++ sep :: join sep ws
  end.

(** What [get_headers] makes of the answer of S3. *)
Definition read_headers (gunzip : bytes -> exn + bytes) (decode_utf8 : bytes -> exn + str)
    (answer : exn + bytes) : exn + list str :=
  match answer with
  | inl e => inl e
  | inr body =>
      match gunzip body with
      | inl e => inl e
      | inr raw =>
          match decode_utf8 raw with
          | inl e => inl e
          | inr got_text => inr (split tab (strip got_text))
          end
      end
  end.


(** A world that serves the same content for every object, answers every
    lookup not found and accepts every create. *)
Definition serving (content : bytes) : environment unit := {|
  env_glue := fun _ c w =>
    (if is_create c then inr tt else inl EntityNotFoundException, w);
  env_get_object := fun _ _ w => (inr content, w);
  env_time := fun w => (0%float, w);
|}.

(** A world in which the header file changes between two fetches: the
    state counts the fetches, the first is served [a<TAB>b<TAB>c<LF>] and
    the later ones [x<TAB>y<LF>]. *)
Definition changing_headers : environment nat := {|
  env_glue := fun _ c n =>
    (if is_create c then inr tt else inl EntityNotFoundException, n);
  env_get_object := fun _ _ n =>
    (inr (match n with
          | O => example_headers
          | S _ => encode_ascii (lit "x" ++ [tab] ++ lit "y" ++ [10%N])
          end), S n);
  env_time := fun n => (0%float, n);
|}.

(** The columns of the storage descriptor of the input of a create call. *)
Definition columns_of (input : pydict) : option pyval :=
  dict_get (lit "StorageDescriptor") input ≫= item "Columns".

Definition location_of (input : pydict) : option pyval :=
  dict_get (lit "StorageDescriptor") input ≫= item "Location".

(** A bucket with the header files of two days, and the catalog after the
    first day was reconciled. *)
Definition two_days_objects : gmap (str * str) bytes :=
  <[ (lit "bucket",
      lit "feed/rawtsv/column_headers/dt=2024-03-02/column_headers.tsv.gz")
     := encode_ascii (lit "x" ++ [tab] ++ lit "y" ++ [10%N]) ]> example_objects.

Definition first_day : world :=
  final (run reference example_handler
           {| cat := empty_catalog; objects := two_days_objects; clock := 0%float |}).

(** The inputs of the create-table and create-partition calls of a trace,
    in order. *)
Definition create_input (ev : event) : option pydict :=
  match ev with
  | EvGlue _ (create_table _ input) _ => Some input
  | EvGlue _ (create_partition _ _ input) _ => Some input
  | _ => None
  end.

Definition create_inputs (tr : list event) : list pydict := omap create_input tr.


(** A header file of a space and a line feed. *)
Definition blank_headers : str := lit " " ++ [10%N].

(** ** More observations on runs *)

(** The number of occurrences of a character. *)
Definition count_char (c : char) (s : list char) : nat :=
  length (filter (fun x => x = c) s).

(** What the bucket holds for the header file of a date, read as
    [get_headers] reads it. *)
Definition stored_headers (urlparse : str -> url_object)
    (gunzip : bytes -> exn + bytes) (decode_utf8 : bytes -> exn + str)
    (objs : gmap (str * str) bytes) (base date : str) : exn + list str :=
  read_headers gunzip decode_utf8
    (match objs !! (netloc (urlparse (header_file base date)),
                    lstrip (lit "/") (path (urlparse (header_file base date)))) with
     | Some body => inr body
     | None => inl (ClientError (lit "NoSuchKey"))
     end).

(** An event with the three fields, and the same with slashes after the
    two URIs. *)
Definition event_of (report_base lookup_uri report_date : str) : list (str * str) :=
  [(lit "reportBase", report_base);
   (lit "lookupURI", lookup_uri);
   (lit "reportDate", report_date)].

(** The catalog after the example run, and the event of the next day. *)
Definition next_day_event : list (str * str) :=
  event_of (lit "s3://bucket/feed") (lit "s3://bucket/lookup") (lit "2024-03-02").

Definition next_day_handler : prog unit :=
  handler urlparse_plain gunzip_stored decode_ascii
    example_environ next_day_event (PDict []).

(** A program that fetches from S3 nothing but the object [k], at most
    [n] times, whatever the world answers. *)
Definition fetches_only {W : Type} (E : environment W) (k : str * str) (n : nat)
    (p : prog unit) : Prop :=
  forall w : W,
    Forall (fun x => x = k) (s3_fetches (trace (run E p w)))
    /\ length (s3_fetches (trace (run E p w))) <= n.

(** The object that holds the headers of a date. *)
Definition header_object (urlparse : str -> url_object) (base date : str) : str * str :=
  (netloc (urlparse (header_file base date)),
   lstrip (lit "/") (path (urlparse (header_file base date)))).

(** ** The clock *)

Definition is_clock_read (ev : event) : bool :=
  match ev with
  | EvTime _ => true
  | _ => false
  end.

Definition is_create_table (ev : event) : bool :=
  match ev with
  | EvGlue _ (create_table _ _) _ => true
  | _ => false
  end.

(** A trace in which the clock is read for the [LastAccessTime] of a
    [create_table] call and for nothing else: each reading is followed at
    once by a [create_table] call that carries it, and no [create_table]
    call goes without one. *)
Inductive stamped : list event -> Prop :=
| stamped_nil : stamped []
| stamped_create t cl db input r tr :
    dict_get (lit "LastAccessTime") input = Some (PFloat t) ->
    stamped tr ->
    stamped (EvTime t :: EvGlue cl (create_table db input) r :: tr)
| stamped_other ev tr :
    is_clock_read ev = false -> is_create_table ev = false ->
    stamped tr ->
    stamped (ev :: tr).

(** ** Header files that cannot be read *)

(** A trace in which a fetch whose answer gives no headers (the object is
    missing, is no gzip file or is not UTF-8) is the last event, and the
    result is the exception of that fetch. *)
Definition ends_at_failed_read (gunzip : bytes -> exn + bytes)
    (decode_utf8 : bytes -> exn + str) (tr : list event) (res : exn + unit) : Prop :=
  forall pre b k r post e,
    tr = pre ++ EvS3 b k r :: post ->
    read_headers gunzip decode_utf8 r = inl e ->
    post = [] /\ res = inl e.

(** A bucket that serves one byte that is not ASCII. *)
Definition not_text : bytes := [Byte.xff].

(** ** The client of each call *)

Definition glue_client_of (ev : event) : option glue_client :=
  match ev with
  | EvGlue cl _ _ => Some cl
  | _ => None
  end.

(** The Glue clients that the calls of a trace went through, in order. *)
Definition glue_clients (tr : list event) : list glue_client := omap glue_client_of tr.

(** The first and the last character of a text are not white space (an
    empty text has neither). *)
Definition trimmed (s : str) : Prop :=
  match s with
  | c :: _ => isspace c = false
  | [] => True
  end
  /\ match rev s with
     | c :: _ => isspace c = false
     | [] => True
     end.

(** A header file of two names with white space on both sides. *)
Definition padded_headers : bytes :=
  encode_ascii (lit " " ++ [10%N] ++ lit "x" ++ [tab] ++ lit "y z" ++ [13%N; 10%N]).
(** ** Facts about [run] *)

Section Run.
Context {W : Type} (E : environment W).

Lemma run_bind {A B : Type} (p : prog A) (f : A -> prog B) (w : W) :
  run E (bind p f) w =
    match result (run E p w) with
    | inl e => {| trace := trace (run E p w); result := inl e;
                  final := final (run E p w) |}
    | inr a =>
        {| trace := trace (run E p w) ++ trace (run E (f a) (final (run E p w)));
           result := result (run E (f a) (final (run E p w)));
           final := final (run E (f a) (final (run E p w))) |}
    end.
Proof.
  revert w. induction p as [a|e|cl c k IH|b key k IH|k IH|args k IH]; intros w; simpl.
  - by destruct (run E (f a) w).
  - done.
  - destruct (env_glue E cl c w) as [r w']. simpl. rewrite IH.
    by destruct (result (run E (k r) w')).
  - destruct (env_get_object E b key w) as [r w']. simpl. rewrite IH.
    by destruct (result (run E (k r) w')).
  - destruct (env_time E w) as [t w']. simpl. rewrite IH.
    by destruct (result (run E (k t) w')).
  - rewrite IH. by destruct (result (run E k w)).
Qed.

Lemma glue_events_app (t1 t2 : list event) :
  glue_events (t1 ++ t2) = glue_events t1 ++ glue_events t2.
Proof. apply omap_app. Qed.

End Run.

Lemma step_steps p t r : step_shape p t r -> steps_shape [p] t r.
Proof.
  destruct r as [e|[]]; intros H.
  - by apply steps_abort.
  - rewrite <- (app_nil_r t). apply steps_next; [done | constructor].
Qed.

Lemma steps_shape_app ps1 ps2 t1 t2 r :
  steps_shape ps1 t1 (inr tt) -> steps_shape ps2 t2 r ->
  steps_shape (ps1 ++ ps2) (t1 ++ t2) r.
Proof.
  intros H1 H2. remember (inr tt : exn + unit) as ok eqn:Hok.
  induction H1 as [|p ps t ts r1 Hp Hps IH|p ps t e Hp]; simpl.
  - done.
  - rewrite <- app_assoc. apply steps_next; auto.
  - discriminate.
Qed.

Lemma steps_shape_abort_app ps1 ps2 t1 e :
  steps_shape ps1 t1 (inl e) -> steps_shape (ps1 ++ ps2) t1 (inl e).
Proof.
  remember (inl e : exn + unit) as err eqn:Herr.
  induction 1 as [|p ps t ts r1 Hp Hps IH|p ps t e' Hp]; simpl.
  - discriminate.
  - subst. apply steps_next; auto.
  - by apply steps_abort.
Qed.

(** An answer that ends a step with an exception: any exception from a
    create call, and any exception but [EntityNotFoundException] from a
    probe. *)
Lemma steps_shape_raise ps tr r i c e :
  Forall (fun p => is_create p = false) ps ->
  steps_shape ps tr r ->
  tr !! i = Some (c, inl e) ->
  is_create c = true \/ e ≠ EntityNotFoundException ->
  length tr = S i /\ r = inl e.
Proof.
  intros Hps Hsh. revert i.
  induction Hsh as [|p ps t ts r Hp Hrest IH|p ps t e0 Hp]; intros i Hi Hc.
  - done.
  - apply Forall_cons in Hps as [Hp0 Hps].
    destruct (decide (i < length t)) as [Hlt|Hge].
    + rewrite lookup_app_l in Hi by done.
      inversion Hp; subst; destruct i as [|[|i]]; simpl in *; simplify_eq;
        try lia; destruct Hc; congruence.
    + rewrite lookup_app_r in Hi by lia.
      destruct (IH Hps _ Hi Hc) as [Hlen ->]. split; [|done].
      rewrite length_app. lia.
  - apply Forall_cons in Hps as [Hp0 Hps].
    inversion Hp; subst; destruct i as [|[|i]]; simpl in *; simplify_eq;
      try done; destruct Hc; congruence.
Qed.

Lemma probes_not_create db date :
  Forall (fun p => is_create p = false) (probes db date).
Proof.
  unfold probes. rewrite !Forall_app. repeat split.
  - by repeat constructor.
  - by apply Forall_map, Forall_true.
  - by repeat constructor.
Qed.

(** ** Each step is a create-if-absent step, whatever the world answers *)

Section Shapes.
Context {W : Type} (E : environment W).
Variable urlparse : str -> url_object.
Variable gunzip : bytes -> exn + bytes.
Variable decode_utf8 : bytes -> exn + str.

Lemma shaped_seq ps1 ps2 (p q : prog unit) :
  shaped E ps1 p -> shaped E ps2 q -> shaped E (ps1 ++ ps2) (p ;;; q).
Proof.
  intros Hp Hq w. rewrite run_bind. specialize (Hp w).
  destruct (result (run E p w)) as [e|[]]; simpl.
  - by apply steps_shape_abort_app.
  - rewrite glue_events_app. apply steps_shape_app; [done | apply Hq].
Qed.

Lemma create_db_shaped cl db :
  shaped E [get_database db] (create_db cl db).
Proof.
  intros w. apply step_steps. unfold create_db, glue. simpl.
  destruct (env_glue E cl (get_database db) w) as [[e|[]] w1]; simpl.
  - destruct e; simpl; try (by constructor).
    destruct (env_glue E cl _ w1) as [[e|[]] w2]; simpl; by constructor.
  - constructor.
Qed.

Lemma create_glue_table_shaped cl db base date :
  shaped E [get_table db hit_data]
    (create_glue_table urlparse gunzip decode_utf8 cl db base date).
Proof.
  intros w. apply step_steps. unfold create_glue_table, does_table_exist, glue. simpl.
  destruct (env_glue E cl (get_table db hit_data) w) as [[e|[]] w1]; simpl.
  - destruct e; simpl; try (by constructor).
    unfold get_headers, get_s3_file, s3_get_object. simpl.
    destruct (env_get_object E _ _ w1) as [[e|body] w2]; simpl; [by constructor|].
    destruct (gunzip body) as [e|raw]; simpl; [by constructor|].
    destruct (decode_utf8 raw) as [e|text]; simpl; [by constructor|].
    destruct (env_time E w2) as [t w3]; simpl.
    destruct (env_glue E cl _ w3) as [[e|[]] w4]; simpl; by constructor.
  - constructor.
Qed.

Lemma create_lookup_table_shaped cl db uri name :
  shaped E [get_table db name] (create_lookup_table cl db uri name).
Proof.
  intros w. apply step_steps. unfold create_lookup_table, does_table_exist, glue. simpl.
  destruct (env_glue E cl (get_table db name) w) as [[e|[]] w1]; simpl.
  - destruct e; simpl; try (by constructor).
    destruct (env_time E w1) as [t w2]; simpl.
    destruct (env_glue E cl _ w2) as [[e|[]] w3]; simpl; by constructor.
  - constructor.
Qed.

Lemma for_each_lookup_shaped cl db uri (names : list str) :
  shaped E (map (get_table db) names)
    (for_each names (create_lookup_table cl db uri)).
Proof.
  induction names as [|name names IH].
  - intros w. constructor.
  - change (for_each (name :: names) ?f) with (f name ;;; for_each names f).
    apply (shaped_seq [_]); [apply create_lookup_table_shaped | done].
Qed.

Lemma add_hitdata_partition_shaped cl db base date :
  shaped E [get_partition db hit_data [date]]
    (add_hitdata_partition urlparse gunzip decode_utf8 cl db base date).
Proof.
  intros w. apply step_steps.
  unfold add_hitdata_partition, does_partition_exist, glue. simpl.
  destruct (env_glue E cl (get_partition db hit_data [date]) w) as [[e|[]] w1]; simpl.
  - destruct e; simpl; try (by constructor).
    unfold get_headers, get_s3_file, s3_get_object. simpl.
    destruct (env_get_object E _ _ w1) as [[e|body] w2]; simpl; [by constructor|].
    destruct (gunzip body) as [e|raw]; simpl; [by constructor|].
    destruct (decode_utf8 raw) as [e|text]; simpl; [by constructor|].
    destruct (env_glue E cl _ w2) as [[e|[]] w3]; simpl; by constructor.
  - constructor.
Qed.

Lemma reconcile_shaped cl db base lookup date :
  shaped E (probes db date)
    (reconcile urlparse gunzip decode_utf8 cl db base lookup date).
Proof.
  unfold reconcile, probes.
  apply (shaped_seq [_]); [apply create_db_shaped|].
  apply (shaped_seq [_]); [apply create_glue_table_shaped|].
  apply shaped_seq; [apply for_each_lookup_shaped|].
  apply add_hitdata_partition_shaped.
Qed.

Local Abbreviation handler := (handler urlparse gunzip decode_utf8) (only parsing).
Local Abbreviation reconcile := (reconcile urlparse gunzip decode_utf8) (only parsing).

Lemma run_handler os_environ event context cl db base lookup date (w : W) :
  inputs_read os_environ event cl db base lookup date ->
  run E (handler os_environ event context) w =
    observe
      (EvPrint [PStr (lit "Got event");
                PDict (map (fun kv => (kv.1, PStr kv.2)) event)])
      (run E (reconcile cl db base lookup date) w).
Proof.
  intros (rb & lu & reg & Hrb & Hlu & Hd & Hdb & Hreg & -> & -> & ->).
  unfold handler, create_glue_client, getitem, print.
  simpl. rewrite Hrb. simpl. rewrite Hlu. simpl. rewrite Hd. simpl.
  rewrite Hdb. simpl. by rewrite Hreg.
Qed.

(** Either the inputs are read and the four steps run, or a key is
    missing and the invocation ends before any call to a service. *)
Lemma handler_cases os_environ event context :
  (exists cl db base lookup date,
      inputs_read os_environ event cl db base lookup date)
  \/ (exists k, forall w : W,
         run E (handler os_environ event context) w
         = {| trace := [EvPrint [PStr (lit "Got event");
                                 PDict (map (fun kv => (kv.1, PStr kv.2)) event)]];
              result := inl (KeyError k); final := w |}).
Proof.
  destruct (dict_get (lit "reportBase") event) as [rb|] eqn:Hrb;
    [destruct (dict_get (lit "lookupURI") event) as [lu|] eqn:Hlu;
     [destruct (dict_get (lit "reportDate") event) as [d|] eqn:Hd;
      [destruct (dict_get (lit "DB_NAME") os_environ) as [db|] eqn:Hdb;
       [destruct (dict_get (lit "AWS_REGION") os_environ) as [reg|] eqn:Hreg|]|]|]|].
  1: { left. unfold inputs_read. naive_solver. }
  all: right; eexists; intros w;
    unfold handler, create_glue_client, getitem, print;
    simpl; rewrite Hrb; simpl; try rewrite Hlu; simpl; try rewrite Hd; simpl;
    try rewrite Hdb; simpl; try rewrite Hreg; simpl; done.
Qed.

Lemma handler_shaped os_environ event context cl db base lookup date (w : W) :
  inputs_read os_environ event cl db base lookup date ->
  steps_shape (probes db date)
    (glue_events (trace (run E (handler os_environ event context) w)))
    (result (run E (handler os_environ event context) w)).
Proof.
  intros Hin. rewrite (run_handler _ _ _ _ _ _ _ _ _ Hin). simpl.
  apply reconcile_shaped.
Qed.

(** An exception that ends a step ends the invocation: it is the
    invocation's result and no call to the catalog follows. *)
Lemma handler_raise_aborts os_environ event context (w : W) pre cl c e post :
  trace (run E (handler os_environ event context) w)
    = pre ++ EvGlue cl c (inl e) :: post ->
  is_create c = true \/ e ≠ EntityNotFoundException ->
  glue_events post = []
  /\ result (run E (handler os_environ event context) w) = inl e.
Proof.
  intros Htr Hc.
  destruct (handler_cases os_environ event context)
    as [(cl' & db & base & lookup & date & Hin)|(k & Hk)].
  - pose proof (handler_shaped _ _ context _ _ _ _ _ w Hin) as Hsh.
    rewrite Htr, glue_events_app in Hsh. simpl in Hsh.
    eapply (steps_shape_raise _ _ _ (length (glue_events pre))) in Hsh
      as [Hlen Hres]; [| apply probes_not_create | | done].
    + split; [|done]. rewrite length_app in Hlen. simpl in Hlen.
      apply length_zero_iff_nil. lia.
    + by rewrite lookup_app_r, Nat.sub_diag by lia.
  - rewrite Hk in Htr. simpl in Htr. by destruct pre as [|? [|? ?]].
Qed.

End Shapes.

(** ** Order and gating, read off the shape *)

Lemma probe_of_create c p : probe_of c = Some p -> is_create c = true.
Proof. by destruct c. Qed.

Lemma step_shape_probes p t r :
  is_create p = false -> step_shape p t r -> probes_made t = [p].
Proof.
  intros Hp Hsh. unfold probes_made.
  inversion Hsh as [|e He|e|c Hc|c e Hc]; subst; simpl;
    rewrite ?filter_cons, ?filter_nil; simpl;
    try apply probe_of_create in Hc;
    repeat case_decide; congruence.
Qed.

Lemma probes_made_app t1 t2 :
  probes_made (t1 ++ t2) = probes_made t1 ++ probes_made t2.
Proof. unfold probes_made. by rewrite fmap_app, filter_app. Qed.

(** The probes are made in the order of the steps, all of them when the
    invocation completes. *)
Lemma steps_shape_probes ps tr r :
  Forall (fun p => is_create p = false) ps ->
  steps_shape ps tr r ->
  probes_made tr `prefix_of` ps /\ (r = inr tt -> probes_made tr = ps).
Proof.
  intros Hps Hsh.
  induction Hsh as [|p ps t ts r Hp Hrest IH|p ps t e0 Hp].
  - split; [apply prefix_nil | done].
  - apply Forall_cons in Hps as [Hp0 Hps]. destruct (IH Hps) as [IH1 IH2].
    rewrite probes_made_app, (step_shape_probes _ _ _ Hp0 Hp). simpl. split.
    + by apply prefix_cons.
    + intros Hr. by rewrite IH2.
  - apply Forall_cons in Hps as [Hp0 Hps].
    rewrite (step_shape_probes _ _ _ Hp0 Hp). split; [|done].
    apply (prefix_app_r [p] [p] ps), reflexivity.
Qed.

(** A create call directly follows the probe for its object, answered
    not found. *)
Lemma steps_shape_gated ps tr r i c a :
  Forall (fun p => is_create p = false) ps ->
  steps_shape ps tr r ->
  tr !! i = Some (c, a) ->
  is_create c = true ->
  exists j p, i = S j /\ probe_of c = Some p
              /\ tr !! j = Some (p, inl EntityNotFoundException).
Proof.
  intros Hps Hsh. revert i.
  induction Hsh as [|p ps t ts r Hp Hrest IH|p ps t e0 Hp]; intros i Hi Hc.
  - done.
  - apply Forall_cons in Hps as [Hp0 Hps].
    destruct (decide (i < length t)) as [Hlt|Hge].
    + rewrite lookup_app_l in Hi by done.
      inversion Hp; subst; destruct i as [|[|i]]; simpl in *; simplify_eq;
        try lia; try congruence.
      exists 0, p. done.
    + rewrite lookup_app_r in Hi by lia.
      destruct (IH Hps _ Hi Hc) as (j & q & Hj & Hq & Hlook).
      exists (length t + j), q. split; [lia|]. split; [done|].
      rewrite lookup_app_r by lia. by replace (length t + j - length t) with j by lia.
  - apply Forall_cons in Hps as [Hp0 Hps].
    inversion Hp; subst; destruct i as [|[|i]]; simpl in *; simplify_eq;
      try done; try congruence.
    exists 0, p. done.
Qed.

(** ** The claims about errors and about the order of the steps *)

Section Claims.
Context {W : Type} (E : environment W).
Variable urlparse : str -> url_object.
Variable gunzip : bytes -> exn + bytes.
Variable decode_utf8 : bytes -> exn + str.

Local Abbreviation handler := (handler urlparse gunzip decode_utf8) (only parsing).

(** C1 (as amended): when a create call of the handler is reached and the
    catalog rejects it with [AlreadyExistsException], the rejection is not
    caught: it is the error of the invocation, and no further call to the
    catalog is made. *)
Theorem already_exists_propagates os_environ event context (w : W) pre cl c post :
  trace (run E (handler os_environ event context) w)
    = pre ++ EvGlue cl c (inl AlreadyExistsException) :: post ->
  is_create c = true ->
  result (run E (handler os_environ event context) w) = inl AlreadyExistsException
  /\ glue_events post = [].
Proof.
  intros Htr Hc.
  destruct (handler_raise_aborts E urlparse gunzip decode_utf8
              os_environ event context w pre cl c _ post Htr) as [Hpost Hres]; auto.
Qed.

(** C3: an existence predicate makes the one lookup; it returns [False]
    exactly when the lookup raises [EntityNotFoundException], [True] when
    the lookup succeeds, and raises every other exception of the lookup
    unchanged.  In the handler, such an exception from a lookup is the
    error of the invocation and no call to the catalog, so no create,
    follows it. *)
Theorem existence_predicates :
  (forall cl db t (w : W),
      let a := (env_glue E cl (get_table db t) w).1 in
      let o := run E (does_table_exist cl db t) w in
      trace o = [EvGlue cl (get_table db t) a]
      /\ result o = match a with
                    | inr _ => inr true
                    | inl EntityNotFoundException => inr false
                    | inl e => inl e
                    end
      /\ (result o = inr false <-> a = inl EntityNotFoundException))
  /\ (forall cl db t vs (w : W),
      let a := (env_glue E cl (get_partition db t vs) w).1 in
      let o := run E (does_partition_exist cl db t vs) w in
      trace o = [EvGlue cl (get_partition db t vs) a]
      /\ result o = match a with
                    | inr _ => inr true
                    | inl EntityNotFoundException => inr false
                    | inl e => inl e
                    end
      /\ (result o = inr false <-> a = inl EntityNotFoundException))
  /\ (forall os_environ event context (w : W) pre cl c e post,
      trace (run E (handler os_environ event context) w)
        = pre ++ EvGlue cl c (inl e) :: post ->
      is_create c = false ->
      e ≠ EntityNotFoundException ->
      result (run E (handler os_environ event context) w) = inl e
      /\ glue_events post = []).
Proof.
  split; [|split].
  - intros cl db t w. unfold does_table_exist, glue. simpl.
    destruct (env_glue E cl (get_table db t) w) as [[e|[]] w1]; simpl.
    + destruct e; simpl; (split; [done|]); (split; [done|]); split; congruence.
    + split; [done|]. split; [done|]. split; congruence.
  - intros cl db t vs w. unfold does_partition_exist, glue. simpl.
    destruct (env_glue E cl (get_partition db t vs) w) as [[e|[]] w1]; simpl.
    + destruct e; simpl; (split; [done|]); (split; [done|]); split; congruence.
    + split; [done|]. split; [done|]. split; congruence.
  - intros os_environ event context w pre cl c e post Htr Hc He.
    destruct (handler_raise_aborts E urlparse gunzip decode_utf8
                os_environ event context w pre cl c e post Htr) as [Hpost Hres]; auto.
Qed.

(** C8: whatever the catalog answers, the calls the handler makes to it are
    those of the four steps in the order database, base table, lookup
    tables, partition: each step starts with its own probe, the probes are
    made in that order (all of them when the invocation completes), and a
    create call directly follows the probe for the same object, answered
    not found. *)
Theorem steps_in_order_and_gated os_environ event context cl db base lookup date (w : W) :
  inputs_read os_environ event cl db base lookup date ->
  let tr := glue_events (trace (run E (handler os_environ event context) w)) in
  let r := result (run E (handler os_environ event context) w) in
  steps_shape (probes db date) tr r
  /\ probes_made tr `prefix_of` probes db date
  /\ (r = inr tt -> probes_made tr = probes db date)
  /\ (forall i c a,
         tr !! i = Some (c, a) -> is_create c = true ->
         exists j p, i = S j /\ probe_of c = Some p
                     /\ tr !! j = Some (p, inl EntityNotFoundException)).
Proof.
  intros Hin tr r.
  pose proof (handler_shaped E urlparse gunzip decode_utf8 _ _ context _ _ _ _ _ w Hin)
    as Hsh.
  pose proof (probes_not_create db date) as Hps.
  destruct (steps_shape_probes _ _ _ Hps Hsh) as [Hpre Hall].
  repeat split; try done.
  intros i c a Hi Hc. by eapply steps_shape_gated.
Qed.

End Claims.

(** ** The claims at the example inputs *)

Lemma example_inputs_read :
  inputs_read example_environ example_event example_client
    (lit "adobe") (lit "s3://bucket/feed") (lit "s3://bucket/lookup")
    (lit "2024-03-01").
Proof.
  exists (lit "s3://bucket/feed"), (lit "s3://bucket/lookup"), (lit "us-east-1").
  repeat split; vm_compute; reflexivity.
Qed.

(** C1, as stated, fails: when another reconciler wins the race, the
    [AlreadyExistsException] of the create call is the error of the
    invocation, and of each of the create-if-absent steps. *)
Lemma already_exists_is_not_swallowed :
  result (run lost_race example_handler tt) = inl AlreadyExistsException
  /\ result (run lost_race (create_db example_client (lit "adobe")) tt)
     = inl AlreadyExistsException
  /\ result (run lost_race
               (create_glue_table urlparse_plain gunzip_stored decode_ascii
                  example_client (lit "adobe") (lit "s3://bucket/feed")
                  (lit "2024-03-01")) tt)
     = inl AlreadyExistsException
  /\ result (run lost_race
               (create_lookup_tables example_client (lit "adobe")
                  (lit "s3://bucket/lookup")) tt)
     = inl AlreadyExistsException
  /\ result (run lost_race
               (add_hitdata_partition urlparse_plain gunzip_stored decode_ascii
                  example_client (lit "adobe") (lit "s3://bucket/feed")
                  (lit "2024-03-01")) tt)
     = inl AlreadyExistsException.
Proof. repeat split; vm_compute; reflexivity. Qed.

Lemma already_exists_propagates_witness :
  trace (run lost_race example_handler tt)
    = take 3 (trace (run lost_race example_handler tt))
      ++ EvGlue example_client (create_database [(lit "Name", PStr (lit "adobe"))])
           (inl AlreadyExistsException) :: []
  /\ result (run lost_race example_handler tt) = inl AlreadyExistsException
  /\ glue_events [] = [].
Proof.
  split; [vm_compute; reflexivity|].
  apply (already_exists_propagates lost_race urlparse_plain gunzip_stored
           decode_ascii example_environ example_event (PDict []) tt
           (take 3 (trace (run lost_race example_handler tt)))
           example_client (create_database [(lit "Name", PStr (lit "adobe"))]) []).
  - vm_compute. reflexivity.
  - reflexivity.
Defined.

Lemma existence_predicates_witness :
  result (run denied (does_table_exist example_client (lit "adobe") hit_data) tt)
    = inl AccessDeniedException
  /\ result (run lost_race (does_table_exist example_client (lit "adobe") hit_data) tt)
     = inr false
  /\ result (run reference
               (does_partition_exist example_client (lit "adobe") hit_data
                  [lit "2024-03-01"]) fresh)
     = inr false
  /\ result (run denied example_handler tt) = inl AccessDeniedException
  /\ glue_events [] = [].
Proof.
  split; [|split; [|split]].
  - exact (proj1 (proj2 (proj1
      (existence_predicates denied urlparse_plain gunzip_stored decode_ascii)
      example_client (lit "adobe") hit_data tt))).
  - exact (proj1 (proj2 (proj1
      (existence_predicates lost_race urlparse_plain gunzip_stored decode_ascii)
      example_client (lit "adobe") hit_data tt))).
  - exact (proj1 (proj2 (proj1 (proj2
      (existence_predicates reference urlparse_plain gunzip_stored decode_ascii))
      example_client (lit "adobe") hit_data [lit "2024-03-01"] fresh))).
  - apply (proj2 (proj2
      (existence_predicates denied urlparse_plain gunzip_stored decode_ascii))
      example_environ example_event (PDict []) tt
      (take 2 (trace (run denied example_handler tt)))
      example_client (get_table (lit "adobe") hit_data)
      AccessDeniedException []).
    + vm_compute. reflexivity.
    + reflexivity.
    + discriminate.
Defined.

Lemma steps_in_order_and_gated_witness :
  inputs_read example_environ example_event example_client
    (lit "adobe") (lit "s3://bucket/feed") (lit "s3://bucket/lookup")
    (lit "2024-03-01")
  /\ steps_shape (probes (lit "adobe") (lit "2024-03-01"))
       (glue_events (trace (run reference example_handler fresh)))
       (result (run reference example_handler fresh)).
Proof.
  split; [apply example_inputs_read|].
  apply (steps_in_order_and_gated reference urlparse_plain gunzip_stored
           decode_ascii example_environ example_event (PDict []) example_client
           (lit "adobe") (lit "s3://bucket/feed") (lit "s3://bucket/lookup")
           (lit "2024-03-01") fresh example_inputs_read).
Defined.

(** ** The steps against the reference catalog *)

Lemma creates_made_app t1 t2 :
  creates_made (t1 ++ t2) = creates_made t1 ++ creates_made t2.
Proof. unfold creates_made. by rewrite glue_events_app, fmap_app, filter_app. Qed.

(** Nothing but a create call changes the catalog. *)
Lemma reference_quiet {A : Type} (p : prog A) (w : world) :
  creates_made (trace (run reference p w)) = [] ->
  cat (final (run reference p w)) = cat w.
Proof.
  revert w. induction p as [a|e|cl c k IH|b key k IH|k IH|args k IH]; intros w; simpl.
  - done.
  - done.
  - destruct (catalog_call c (cat w)) as [r cat'] eqn:Hcall. simpl.
    unfold creates_made. simpl. rewrite filter_cons.
    destruct (decide (is_create c = true)) as [Hc|Hc]; [done|].
    intros Hq. rewrite (IH r _ Hq). simpl.
    destruct c; simpl in *; try done;
      repeat (case_match; simplify_eq); done.
  - intros Hq. by rewrite (IH _ _ Hq).
  - intros Hq. by rewrite (IH _ _ Hq).
  - intros Hq. by rewrite (IH _ Hq).
Qed.


(** The catalog only grows. *)
Lemma catalog_call_grows c (cat0 : catalog) :
  databases cat0 ⊆ databases (catalog_call c cat0).2
  /\ tables cat0 ⊆ tables (catalog_call c cat0).2
  /\ partitions cat0 ⊆ partitions (catalog_call c cat0).2.
Proof.
  destruct c; simpl; repeat case_match; simpl; repeat split;
    try done; try set_solver; by apply insert_subseteq.
Qed.

Lemma reference_grows {A : Type} (p : prog A) (w : world) :
  databases (cat w) ⊆ databases (cat (final (run reference p w)))
  /\ tables (cat w) ⊆ tables (cat (final (run reference p w)))
  /\ partitions (cat w) ⊆ partitions (cat (final (run reference p w))).
Proof.
  revert w. induction p as [a|e|cl c k IH|b key k IH|k IH|args k IH]; intros w; simpl.
  - done.
  - done.
  - pose proof (catalog_call_grows c (cat w)) as (Hd & Ht & Hp).
    destruct (catalog_call c (cat w)) as [r cat']. simpl in *.
    destruct (IH r {| cat := cat'; objects := objects w; clock := clock w |})
      as (Hd' & Ht' & Hp'). simpl in *.
    repeat split; etrans; eauto.
  - apply IH.
  - destruct (IH (clock w) {| cat := cat w; objects := objects w;
                               clock := (clock w + 1)%float |}) as (Hd' & Ht' & Hp').
    done.
  - apply IH.
Qed.

(** ** The steps against the reference catalog *)


Lemma create_db_present cl db (w : world) :
  db ∈ databases (cat w) ->
  run reference (create_db cl db) w
  = {| trace := [EvGlue cl (get_database db) (inr tt)];
       result := inr tt; final := w |}.
Proof.
  intros Hdb. destruct w as [c o k]. unfold create_db, glue. simpl in *.
  by rewrite decide_True.
Qed.

Lemma create_db_done cl db (w : world) :
  result (run reference (create_db cl db) w) = inr tt
  /\ db ∈ databases (cat (final (run reference (create_db cl db) w))).
Proof.
  destruct w as [c o k]. unfold create_db, glue. simpl.
  destruct (decide (db ∈ databases c)) as [Hdb|Hdb]; simpl; [done|].
  rewrite decide_False by done. simpl. split; [done | set_solver].
Qed.

Lemma create_lookup_table_present cl db uri name (w : world) :
  is_Some (tables (cat w) !! (db, name)) ->
  run reference (create_lookup_table cl db uri name) w
  = {| trace := [EvGlue cl (get_table db name) (inr tt)];
       result := inr tt; final := w |}.
Proof.
  intros [t Ht]. destruct w as [c o k].
  unfold create_lookup_table, does_table_exist, glue. simpl in *. by rewrite Ht.
Qed.

(** One iteration of the loop, in a catalog that has the database: the
    table is there afterwards, made by this iteration only if it was absent,
    and nothing else changes. *)
Lemma create_lookup_table_done cl db uri name (w : world) :
  db ∈ databases (cat w) ->
  let o := run reference (create_lookup_table cl db uri name) w in
  result o = inr tt
  /\ databases (cat (final o)) = databases (cat w)
  /\ partitions (cat (final o)) = partitions (cat w)
  /\ (forall key, key ≠ (db, name) ->
        tables (cat (final o)) !! key = tables (cat w) !! key)
  /\ match tables (cat w) !! (db, name) with
     | Some t => tables (cat (final o)) !! (db, name) = Some t
     | None => exists input, tables (cat (final o)) !! (db, name) = Some input
                             /\ is_lookup_table uri name input
     end.
Proof.
  intros Hdb. destruct w as [c o k].
  unfold create_lookup_table, does_table_exist, glue. simpl in *.
  destruct (tables c !! (db, name)) as [t|] eqn:Ht; simpl.
  { by rewrite Ht. }
  rewrite decide_True by done. rewrite Ht. simpl.
  repeat split; try done.
  - intros key Hkey. by rewrite lookup_insert_ne.
  - eexists. rewrite lookup_insert_eq. split; [done|].
    repeat split. eexists. repeat split.
Qed.

Section ReferenceSteps.
Variable urlparse : str -> url_object.
Variable gunzip : bytes -> exn + bytes.
Variable decode_utf8 : bytes -> exn + str.

Lemma create_glue_table_present cl db base date (w : world) :
  is_Some (tables (cat w) !! (db, hit_data)) ->
  run reference (create_glue_table urlparse gunzip decode_utf8 cl db base date) w
  = {| trace := [EvGlue cl (get_table db hit_data) (inr tt)];
       result := inr tt; final := w |}.
Proof.
  intros [t Ht]. destruct w as [c o k].
  unfold create_glue_table, does_table_exist, glue. simpl in *. by rewrite Ht.
Qed.

Lemma create_glue_table_done cl db base date (w : world) :
  db ∈ databases (cat w) ->
  match result (run reference
                  (create_glue_table urlparse gunzip decode_utf8 cl db base date) w) with
  | inr _ =>
      is_Some (tables (cat (final (run reference
                 (create_glue_table urlparse gunzip decode_utf8 cl db base date) w)))
               !! (db, hit_data))
  | inl _ =>
      final (run reference
               (create_glue_table urlparse gunzip decode_utf8 cl db base date) w) = w
      /\ creates_made (trace (run reference
               (create_glue_table urlparse gunzip decode_utf8 cl db base date) w)) = []
  end.
Proof.
  intros Hdb. destruct w as [c o k].
  unfold create_glue_table, does_table_exist, glue. simpl in *.
  destruct (tables c !! (db, hit_data)) as [t|] eqn:Ht; simpl.
  { by rewrite Ht. }
  unfold get_headers, get_s3_file, s3_get_object. simpl.
  destruct (o !! _) as [body|]; simpl; [|done].
  destruct (gunzip body) as [e|raw]; simpl; [done|].
  destruct (decode_utf8 raw) as [e|text]; simpl; [done|].
  rewrite decide_True by done. rewrite Ht. simpl.
  by rewrite lookup_insert_eq.
Qed.

Lemma add_hitdata_partition_present cl db base date (w : world) :
  is_Some (partitions (cat w) !! (db, hit_data, [date])) ->
  run reference (add_hitdata_partition urlparse gunzip decode_utf8 cl db base date) w
  = {| trace := [EvGlue cl (get_partition db hit_data [date]) (inr tt)];
       result := inr tt; final := w |}.
Proof.
  intros [t Ht]. destruct w as [c o k].
  unfold add_hitdata_partition, does_partition_exist, glue. simpl in *. by rewrite Ht.
Qed.

Lemma add_hitdata_partition_done cl db base date (w : world) :
  is_Some (tables (cat w) !! (db, hit_data)) ->
  match result (run reference
                  (add_hitdata_partition urlparse gunzip decode_utf8 cl db base date) w) with
  | inr _ =>
      is_Some (partitions (cat (final (run reference
                 (add_hitdata_partition urlparse gunzip decode_utf8 cl db base date) w)))
               !! (db, hit_data, [date]))
  | inl _ =>
      final (run reference
               (add_hitdata_partition urlparse gunzip decode_utf8 cl db base date) w) = w
      /\ creates_made (trace (run reference
               (add_hitdata_partition urlparse gunzip decode_utf8 cl db base date) w)) = []
  end.
Proof.
  intros [t Ht]. destruct w as [c o k].
  unfold add_hitdata_partition, does_partition_exist, glue. simpl in *.
  destruct (partitions c !! (db, hit_data, [date])) as [p|] eqn:Hp; simpl.
  { by rewrite Hp. }
  unfold get_headers, get_s3_file, s3_get_object. simpl.
  destruct (o !! _) as [body|]; simpl; [|done].
  destruct (gunzip body) as [e|raw]; simpl; [done|].
  destruct (decode_utf8 raw) as [e|text]; simpl; [done|].
  rewrite Ht, Hp. simpl. by rewrite lookup_insert_eq.
Qed.

End ReferenceSteps.

Lemma run_seq_ok {W : Type} (E : environment W) (p q : prog unit) (w : W) :
  result (run E p w) = inr tt ->
  run E (p ;;; q) w
  = {| trace := trace (run E p w) ++ trace (run E q (final (run E p w)));
       result := result (run E q (final (run E p w)));
       final := final (run E q (final (run E p w))) |}.
Proof. intros H. rewrite run_bind. by rewrite H. Qed.

Lemma run_seq_raise {W : Type} (E : environment W) (p q : prog unit) (w : W) e :
  result (run E p w) = inl e ->
  run E (p ;;; q) w
  = {| trace := trace (run E p w); result := inl e; final := final (run E p w) |}.
Proof. intros H. rewrite run_bind. by rewrite H. Qed.

(** The loop over the lookup tables, in a catalog that has the database:
    it completes; each table of the list is there afterwards, made by the
    loop only if it was absent; nothing else changes. *)
Lemma for_each_lookup_done cl db uri (names : list str) (w : world) :
  db ∈ databases (cat w) ->
  let o := run reference (for_each names (create_lookup_table cl db uri)) w in
  result o = inr tt
  /\ databases (cat (final o)) = databases (cat w)
  /\ partitions (cat (final o)) = partitions (cat w)
  /\ (forall key, (forall name, name ∈ names -> key ≠ (db, name)) ->
        tables (cat (final o)) !! key = tables (cat w) !! key)
  /\ (forall name, name ∈ names ->
        match tables (cat w) !! (db, name) with
        | Some t => tables (cat (final o)) !! (db, name) = Some t
        | None => exists input, tables (cat (final o)) !! (db, name) = Some input
                                /\ is_lookup_table uri name input
        end).
Proof.
  revert w. induction names as [|n names IH]; intros w Hdb.
  - simpl. repeat split; try done. intros name Hn. by apply elem_of_nil in Hn.
  - change (for_each (n :: names) ?f) with (f n ;;; for_each names f).
    destruct (create_lookup_table_done cl db uri n w Hdb)
      as (Hr & Hd & Hp & Hframe & Hn).
    cbv zeta. rewrite (run_seq_ok _ _ _ _ Hr). cbn [trace result final].
    set (w1 := final (run reference (create_lookup_table cl db uri n) w)) in *.
    assert (db ∈ databases (cat w1)) as Hdb1 by (by rewrite Hd).
    destruct (IH w1 Hdb1) as (Hr' & Hd' & Hp' & Hframe' & Hn').
    pose proof (reference_grows
                  (for_each names (create_lookup_table cl db uri)) w1)
      as (_ & Hgrow & _).
    split; [done|]. split; [by etrans|]. split; [by etrans|]. split.
    + intros key Hkey. rewrite Hframe'.
      * apply Hframe, Hkey. by left.
      * intros name Hname. apply Hkey. by right.
    + intros name Hname.
      destruct (decide (name = n)) as [->|Hne].
      * destruct (tables (cat w) !! (db, n)) as [t|].
        -- by eapply lookup_weaken.
        -- destruct Hn as (input & Hin & Hshape). exists input. split; [|done].
           by eapply lookup_weaken.
      * apply elem_of_cons in Hname as [?|Hname]; [done|].
        specialize (Hn' name Hname). rewrite Hframe in Hn' by congruence. done.
Qed.

Lemma for_each_lookup_present cl db uri (names : list str) (w : world) :
  Forall (fun name => is_Some (tables (cat w) !! (db, name))) names ->
  let o := run reference (for_each names (create_lookup_table cl db uri)) w in
  result o = inr tt /\ final o = w /\ creates_made (trace o) = [].
Proof.
  induction 1 as [|n names Hn Hnames IH].
  - done.
  - change (for_each (n :: names) ?f) with (f n ;;; for_each names f).
    cbv zeta. rewrite run_bind, (create_lookup_table_present _ _ _ _ _ Hn). simpl.
    destruct IH as (Hr & Hf & Hc). done.
Qed.

(** What each step leaves alone. *)
Lemma create_db_frame cl db (w : world) :
  tables (cat (final (run reference (create_db cl db) w))) = tables (cat w)
  /\ partitions (cat (final (run reference (create_db cl db) w))) = partitions (cat w).
Proof.
  destruct w as [c o k]. unfold create_db, glue. simpl.
  destruct (decide (db ∈ databases c)) as [Hdb|Hdb]; simpl; [done|].
  by rewrite decide_False by done.
Qed.

Section Frames.
Variable urlparse : str -> url_object.
Variable gunzip : bytes -> exn + bytes.
Variable decode_utf8 : bytes -> exn + str.

Lemma create_glue_table_frame cl db base date (w : world) :
  let o := run reference
             (create_glue_table urlparse gunzip decode_utf8 cl db base date) w in
  databases (cat (final o)) = databases (cat w)
  /\ partitions (cat (final o)) = partitions (cat w)
  /\ (forall key, key ≠ (db, hit_data) ->
        tables (cat (final o)) !! key = tables (cat w) !! key).
Proof.
  destruct w as [c o k].
  unfold create_glue_table, does_table_exist, glue. simpl.
  destruct (tables c !! (db, hit_data)) as [t|] eqn:Ht; simpl.
  { by repeat split. }
  unfold get_headers, get_s3_file, s3_get_object. simpl.
  destruct (o !! _) as [body|]; simpl; [|by repeat split].
  destruct (gunzip body) as [e|raw]; simpl; [by repeat split|].
  destruct (decode_utf8 raw) as [e|text]; simpl; [by repeat split|].
  destruct (decide (db ∈ databases c)); simpl; [|by repeat split].
  rewrite Ht. simpl. repeat split. intros key Hkey. by rewrite lookup_insert_ne.
Qed.

Lemma add_hitdata_partition_frame cl db base date (w : world) :
  let o := run reference
             (add_hitdata_partition urlparse gunzip decode_utf8 cl db base date) w in
  databases (cat (final o)) = databases (cat w)
  /\ tables (cat (final o)) = tables (cat w)
  /\ (forall key, key ≠ (db, hit_data, [date]) ->
        partitions (cat (final o)) !! key = partitions (cat w) !! key)
  /\ (forall p, partitions (cat w) !! (db, hit_data, [date]) = Some p ->
        partitions (cat (final o)) !! (db, hit_data, [date]) = Some p).
Proof.
  destruct w as [c o k].
  unfold add_hitdata_partition, does_partition_exist, glue. simpl.
  destruct (partitions c !! (db, hit_data, [date])) as [p|] eqn:Hp; simpl.
  { repeat split; congruence. }
  unfold get_headers, get_s3_file, s3_get_object. simpl.
  destruct (o !! _) as [body|]; simpl; [|by repeat split].
  destruct (gunzip body) as [e|raw]; simpl; [by repeat split|].
  destruct (decode_utf8 raw) as [e|text]; simpl; [by repeat split|].
  destruct (tables c !! (db, hit_data)); simpl; [|by repeat split].
  rewrite Hp. simpl. repeat split; [|done]. intros key Hkey. by rewrite lookup_insert_ne.
Qed.

End Frames.

(** ** Running the reconciliation again *)

Section Again.
Variable urlparse : str -> url_object.
Variable gunzip : bytes -> exn + bytes.
Variable decode_utf8 : bytes -> exn + str.

Local Abbreviation reconcile := (reconcile urlparse gunzip decode_utf8) (only parsing).
Local Abbreviation base_table :=
  (create_glue_table urlparse gunzip decode_utf8) (only parsing).
Local Abbreviation partition :=
  (add_hitdata_partition urlparse gunzip decode_utf8) (only parsing).

Lemma creates_made_probe cl c a tr :
  is_create c = false -> creates_made (EvGlue cl c a :: tr) = creates_made tr.
Proof.
  intros Hc. unfold creates_made. simpl.
  rewrite filter_cons_False; [done|]. simpl. congruence.
Qed.

(** In a catalog that has everything, the reconciliation changes nothing
    and creates nothing. *)
Lemma reconcile_settled cl db base lookup date (w : world) :
  db ∈ databases (cat w) ->
  is_Some (tables (cat w) !! (db, hit_data)) ->
  Forall (fun name => is_Some (tables (cat w) !! (db, name))) generic_lookup_types ->
  is_Some (partitions (cat w) !! (db, hit_data, [date])) ->
  let o := run reference (reconcile cl db base lookup date) w in
  result o = inr tt /\ final o = w /\ creates_made (trace o) = [].
Proof.
  intros Hdb Ht Hl Hp. unfold reconcile, create_lookup_tables. cbv zeta.
  destruct (for_each_lookup_present cl db lookup _ w Hl) as (Hr3 & Hf3 & Hc3).
  rewrite run_bind, (create_db_present _ _ _ Hdb). cbn [trace result final].
  rewrite run_bind, (create_glue_table_present _ _ _ _ _ _ _ _ Ht).
  cbn [trace result final].
  rewrite run_bind, Hr3, Hf3. cbn [trace result final].
  rewrite (add_hitdata_partition_present _ _ _ _ _ _ _ _ Hp).
  cbn [trace result final]. repeat split.
  rewrite !creates_made_app, Hc3, !creates_made_probe by done. done.
Qed.

(** After the second step failed, or the fourth: what a new run does. *)
Lemma reconcile_stuck_at_table cl db base lookup date (w : world) e :
  db ∈ databases (cat w) ->
  result (run reference (base_table cl db base date) w) = inl e ->
  final (run reference (base_table cl db base date) w) = w ->
  creates_made (trace (run reference (base_table cl db base date) w)) = [] ->
  let o := run reference (reconcile cl db base lookup date) w in
  result o = inl e /\ final o = w /\ creates_made (trace o) = [].
Proof.
  intros Hdb Hr Hf Hc. unfold reconcile. cbv zeta.
  rewrite run_bind, (create_db_present _ _ _ Hdb). cbn [trace result final].
  rewrite (run_seq_raise _ _ _ _ _ Hr). cbn [trace result final].
  repeat split; [done|].
  rewrite creates_made_app, Hc, creates_made_probe by done. done.
Qed.

Lemma reconcile_stuck_at_partition cl db base lookup date (w : world) e :
  db ∈ databases (cat w) ->
  is_Some (tables (cat w) !! (db, hit_data)) ->
  Forall (fun name => is_Some (tables (cat w) !! (db, name))) generic_lookup_types ->
  result (run reference (partition cl db base date) w) = inl e ->
  final (run reference (partition cl db base date) w) = w ->
  creates_made (trace (run reference (partition cl db base date) w)) = [] ->
  let o := run reference (reconcile cl db base lookup date) w in
  result o = inl e /\ final o = w /\ creates_made (trace o) = [].
Proof.
  intros Hdb Ht Hl Hr Hf Hc. unfold reconcile, create_lookup_tables. cbv zeta.
  destruct (for_each_lookup_present cl db lookup _ w Hl) as (Hr3 & Hf3 & Hc3).
  rewrite run_bind, (create_db_present _ _ _ Hdb). cbn [trace result final].
  rewrite run_bind, (create_glue_table_present _ _ _ _ _ _ _ _ Ht).
  cbn [trace result final].
  rewrite run_bind, Hr3, Hf3. cbn [trace result final].
  rewrite Hr, Hf. repeat split.
  rewrite !creates_made_app, Hc3, Hc, !creates_made_probe by done. done.
Qed.

(** The first run, step by step. *)
Lemma reconcile_run cl db base lookup date (w : world) :
  let w1 := final (run reference (create_db cl db) w) in
  let o2 := run reference (base_table cl db base date) w1 in
  let o3 := run reference (create_lookup_tables cl db lookup) (final o2) in
  let o4 := run reference (partition cl db base date) (final o3) in
  let o := run reference (reconcile cl db base lookup date) w in
  match result o2 with
  | inl e => result o = inl e /\ final o = final o2
  | inr _ => result o = result o4 /\ final o = final o4
  end.
Proof.
  intros w1 o2 o3 o4 o. subst o. unfold reconcile.
  destruct (create_db_done cl db w) as [Hr1 Hdb1]. fold w1 in Hdb1.
  rewrite (run_seq_ok _ _ _ _ Hr1). cbn [trace result final]. fold w1.
  rewrite run_bind. fold o2.
  destruct (result o2) as [e|[]] eqn:Hr2; cbn [trace result final]; [done|].
  pose proof (create_glue_table_frame urlparse gunzip decode_utf8 cl db base date w1)
    as (Hd2 & _). fold o2 in Hd2.
  assert (db ∈ databases (cat (final o2))) as Hdb2 by (by rewrite Hd2).
  destruct (for_each_lookup_done cl db lookup generic_lookup_types _ Hdb2)
    as (Hr3 & _).
  rewrite (run_seq_ok _ _ _ _ Hr3). cbn [trace result final]. done.
Qed.

(** Where a run leaves the catalog: with everything in place when it
    completed, and otherwise in a state in which the step that raised
    raises again. *)
Lemma reconcile_outcome cl db base lookup date (w : world) :
  let o := run reference (reconcile cl db base lookup date) w in
  db ∈ databases (cat (final o))
  /\ match result o with
     | inr _ =>
         is_Some (tables (cat (final o)) !! (db, hit_data))
         /\ Forall (fun name => is_Some (tables (cat (final o)) !! (db, name)))
              generic_lookup_types
         /\ is_Some (partitions (cat (final o)) !! (db, hit_data, [date]))
     | inl e =>
         (result (run reference (base_table cl db base date) (final o)) = inl e
          /\ final (run reference (base_table cl db base date) (final o)) = final o
          /\ creates_made
               (trace (run reference (base_table cl db base date) (final o))) = [])
         \/ (is_Some (tables (cat (final o)) !! (db, hit_data))
             /\ Forall (fun name => is_Some (tables (cat (final o)) !! (db, name)))
                  generic_lookup_types
             /\ result (run reference (partition cl db base date) (final o)) = inl e
             /\ final (run reference (partition cl db base date) (final o)) = final o
             /\ creates_made
                  (trace (run reference (partition cl db base date) (final o))) = [])
     end.
Proof.
  pose proof (reconcile_run cl db base lookup date w) as Hrun. cbv zeta in *.
  destruct (create_db_done cl db w) as [Hr1 Hdb1].
  set (w1 := final (run reference (create_db cl db) w)) in *.
  pose proof (create_glue_table_done urlparse gunzip decode_utf8 cl db base date w1 Hdb1)
    as Hdone2.
  pose proof (create_glue_table_frame urlparse gunzip decode_utf8 cl db base date w1)
    as (Hd2 & _). cbv zeta in Hd2.
  set (o2 := run reference (base_table cl db base date) w1) in *.
  destruct (result o2) as [e|[]] eqn:Hr2.
  - destruct Hrun as [-> ->]. destruct Hdone2 as [Hf2 Hc2].
    split; [by rewrite Hd2|]. left. rewrite Hf2. fold o2. by rewrite Hr2, Hf2.
  - assert (db ∈ databases (cat (final o2))) as Hdb2 by (by rewrite Hd2).
    destruct (for_each_lookup_done cl db lookup generic_lookup_types _ Hdb2)
      as (Hr3 & Hd3 & _ & _ & Hl3).
    pose proof (reference_grows (create_lookup_tables cl db lookup) (final o2))
      as (_ & Hg3 & _).
    unfold create_lookup_tables in *.
    set (o3 := run reference
                 (for_each generic_lookup_types (create_lookup_table cl db lookup))
                 (final o2)) in *.
    assert (is_Some (tables (cat (final o3)) !! (db, hit_data))) as Ht3.
    { destruct Hdone2 as [t Ht]. exists t. by eapply lookup_weaken. }
    assert (Forall (fun name => is_Some (tables (cat (final o3)) !! (db, name)))
              generic_lookup_types) as Hall3.
    { apply Forall_forall. intros name Hname. specialize (Hl3 name Hname).
      destruct (tables (cat (final o2)) !! (db, name)); [by eexists|].
      destruct Hl3 as (input & -> & _). by eexists. }
    pose proof (add_hitdata_partition_done urlparse gunzip decode_utf8
                  cl db base date (final o3) Ht3) as Hdone4.
    pose proof (add_hitdata_partition_frame urlparse gunzip decode_utf8
                  cl db base date (final o3)) as (Hd4 & Ht4 & _). cbv zeta in Hd4, Ht4.
    set (o4 := run reference (partition cl db base date) (final o3)) in *.
    destruct Hrun as [-> ->].
    split; [by rewrite Hd4, Hd3|].
    destruct (result o4) as [e|[]] eqn:Hr4.
    + destruct Hdone4 as [Hf4 Hc4]. right. rewrite Hf4. fold o4.
      by rewrite Hr4, Hf4.
    + rewrite Ht4. done.
Qed.

(** A second run in succession ends in the world, and with the result, of
    the first, and makes no create call. *)
Lemma reconcile_again cl db base lookup date (w : world) :
  let o1 := run reference (reconcile cl db base lookup date) w in
  let o2 := run reference (reconcile cl db base lookup date) (final o1) in
  result o2 = result o1 /\ final o2 = final o1 /\ creates_made (trace o2) = [].
Proof.
  cbv zeta.
  destruct (reconcile_outcome cl db base lookup date w) as [Hdb Hcase].
  cbv zeta in *.
  set (o1 := run reference (reconcile cl db base lookup date) w) in *.
  destruct (result o1) as [e|[]].
  - destruct Hcase as [(Hr & Hf & Hc)|(Ht & Hl & Hr & Hf & Hc)].
    + by apply reconcile_stuck_at_table.
    + by apply reconcile_stuck_at_partition.
  - destruct Hcase as (Ht & Hl & Hp). by apply reconcile_settled.
Qed.

End Again.

(** ** The claims about the catalog after a run *)

Lemma hit_data_not_lookup name : name ∈ generic_lookup_types -> name ≠ hit_data.
Proof.
  intros H ->. unfold generic_lookup_types in H.
  repeat (apply elem_of_cons in H as [H|H]; [by vm_compute in H|]).
  by apply elem_of_nil in H.
Qed.

Lemma creates_made_print args tr : creates_made (EvPrint args :: tr) = creates_made tr.
Proof. done. Qed.

Section CatalogClaims.
Variable urlparse : str -> url_object.
Variable gunzip : bytes -> exn + bytes.
Variable decode_utf8 : bytes -> exn + str.

Local Abbreviation handler := (handler urlparse gunzip decode_utf8) (only parsing).
Local Abbreviation reconcile := (reconcile urlparse gunzip decode_utf8) (only parsing).

(** The lookup tables after a run that completed. *)
Lemma reconcile_lookup_tables cl db base lookup date (w : world) name :
  result (run reference (reconcile cl db base lookup date) w) = inr tt ->
  name ∈ generic_lookup_types ->
  match tables (cat w) !! (db, name) with
  | Some t =>
      tables (cat (final (run reference (reconcile cl db base lookup date) w)))
        !! (db, name) = Some t
  | None =>
      exists input,
        tables (cat (final (run reference (reconcile cl db base lookup date) w)))
          !! (db, name) = Some input
        /\ is_lookup_table lookup name input
  end.
Proof.
  intros Hr Hname.
  pose proof (reconcile_run urlparse gunzip decode_utf8 cl db base lookup date w) as Hrun.
  cbv zeta in Hrun.
  destruct (create_db_done cl db w) as [_ Hdb1].
  destruct (create_db_frame cl db w) as [Ht1 _].
  set (w1 := final (run reference (create_db cl db) w)) in *.
  pose proof (create_glue_table_frame urlparse gunzip decode_utf8 cl db base date w1)
    as (Hd2 & _ & Ht2). cbv zeta in Hd2, Ht2.
  set (o2 := run reference (create_glue_table urlparse gunzip decode_utf8 cl db base date) w1) in *.
  destruct (result o2) as [e|[]].
  { destruct Hrun as [Hrun _]. congruence. }
  destruct Hrun as [_ ->].
  assert (db ∈ databases (cat (final o2))) as Hdb2 by (by rewrite Hd2).
  destruct (for_each_lookup_done cl db lookup generic_lookup_types _ Hdb2)
    as (_ & _ & _ & _ & Hl3).
  specialize (Hl3 name Hname). unfold create_lookup_tables in *.
  set (o3 := run reference
               (for_each generic_lookup_types (create_lookup_table cl db lookup))
               (final o2)) in *.
  pose proof (add_hitdata_partition_frame urlparse gunzip decode_utf8
                cl db base date (final o3)) as (_ & Ht4 & _). cbv zeta in Ht4.
  rewrite Ht4.
  assert (tables (cat (final o2)) !! (db, name) = tables (cat w) !! (db, name)) as <-.
  { rewrite Ht2, Ht1; [done|]. intros [= ->]. by apply hit_data_not_lookup in Hname. }
  done.
Qed.


(** C7 (as amended): after a run that completed, every name of the fixed
    set is a table of the database; one that was absent before the run is
    unpartitioned, with the two string columns [id] and [value], at
    [lookupURI/name/] (the URI without its trailing slashes), and one that
    was there before is as it was; a second run makes no create call. *)
Theorem lookup_tables_complete os_environ event context cl db base lookup date
    (w : world) name :
  inputs_read os_environ event cl db base lookup date ->
  result (run reference (handler os_environ event context) w) = inr tt ->
  name ∈ generic_lookup_types ->
  match tables (cat w) !! (db, name) with
  | Some t =>
      tables (cat (final (run reference (handler os_environ event context) w)))
        !! (db, name) = Some t
  | None =>
      exists input,
        tables (cat (final (run reference (handler os_environ event context) w)))
          !! (db, name) = Some input
        /\ is_lookup_table lookup name input
  end
  /\ creates_made
       (trace (run reference (handler os_environ event context)
                 (final (run reference (handler os_environ event context) w)))) = [].
Proof.
  intros Hin Hr Hname. split.
  - rewrite (run_handler _ _ _ _ _ _ _ _ _ _ _ _ _ Hin) in *.
    cbn [observe trace result final] in *.
    by apply reconcile_lookup_tables.
  - rewrite !(run_handler _ _ _ _ _ _ _ _ _ _ _ _ _ Hin).
    cbn [observe trace result final].
    destruct (reconcile_again urlparse gunzip decode_utf8 cl db base lookup date w)
      as (_ & _ & Hc).
    by rewrite creates_made_print.
Qed.

(** C9: when the lookup of [hit_data] succeeds, the table step makes no
    other call: no header fetch, no create.  Against the reference catalog,
    a [hit_data] table that exists is left as it is, with the rest of the
    catalog, whatever the header file holds. *)
Theorem existing_table_untouched :
  (forall (W : Type) (E : environment W) cl db base date (w : W),
      (env_glue E cl (get_table db hit_data) w).1 = inr tt ->
      run E (create_glue_table urlparse gunzip decode_utf8 cl db base date) w
      = {| trace := [EvGlue cl (get_table db hit_data) (inr tt)];
           result := inr tt;
           final := (env_glue E cl (get_table db hit_data) w).2 |})
  /\ (forall cl db base date (w : world) t,
      tables (cat w) !! (db, hit_data) = Some t ->
      let o := run reference
                 (create_glue_table urlparse gunzip decode_utf8 cl db base date) w in
      result o = inr tt
      /\ final o = w
      /\ creates_made (trace o) = []
      /\ s3_fetches (trace o) = []
      /\ tables (cat (final o)) !! (db, hit_data) = Some t).
Proof.
  split.
  - intros W E cl db base date w Hget.
    unfold create_glue_table, does_table_exist, glue. simpl.
    destruct (env_glue E cl (get_table db hit_data) w) as [r w1].
    simpl in Hget. by subst r.
  - intros cl db base date w t Ht. cbv zeta.
    rewrite (create_glue_table_present urlparse gunzip decode_utf8 cl db base date w)
      by (by eexists).
    by cbn [trace result final].
Qed.

End CatalogClaims.


(** C7, as stated, fails: a table [browser] that somebody else made,
    partitioned and with another column, is still that table after a run
    that completed. *)
Lemma foreign_lookup_table_kept :
  result (run reference example_handler with_foreign_browser) = inr tt
  /\ tables (cat (final (run reference example_handler with_foreign_browser)))
       !! (lit "adobe", lit "browser") = Some foreign_browser_table
  /\ dict_get (lit "PartitionKeys") foreign_browser_table
     = Some (PList [PDict [(lit "Name", PStr (lit "year"));
                           (lit "Type", PStr (lit "string"))]])
  /\ (dict_get (lit "StorageDescriptor") foreign_browser_table ≫= item "Columns")
     = Some (PList [PDict [(lit "Type", PStr (lit "string"));
                           (lit "Name", PStr (lit "code"))]]).
Proof. repeat split; vm_compute; reflexivity. Qed.

Lemma lookup_tables_complete_witness :
  inputs_read example_environ example_event example_client
    (lit "adobe") (lit "s3://bucket/feed") (lit "s3://bucket/lookup")
    (lit "2024-03-01")
  /\ result (run reference example_handler fresh) = inr tt
  /\ lit "browser" ∈ generic_lookup_types
  /\ (exists input,
        tables (cat (final (run reference example_handler fresh)))
          !! (lit "adobe", lit "browser") = Some input
        /\ is_lookup_table (lit "s3://bucket/lookup") (lit "browser") input)
  /\ creates_made
       (trace (run reference example_handler
                 (final (run reference example_handler fresh)))) = [].
Proof.
  split; [apply example_inputs_read|].
  split; [vm_compute; reflexivity|].
  split; [by constructor|].
  apply (lookup_tables_complete urlparse_plain gunzip_stored decode_ascii
           example_environ example_event (PDict []) example_client
           (lit "adobe") (lit "s3://bucket/feed") (lit "s3://bucket/lookup")
           (lit "2024-03-01") fresh (lit "browser") example_inputs_read).
  - vm_compute. reflexivity.
  - by constructor.
Defined.

Lemma existing_table_untouched_witness :
  tables (cat with_old_hit_data) !! (lit "adobe", hit_data) = Some old_hit_data_table
  /\ result (run reference
               (create_glue_table urlparse_plain gunzip_stored decode_ascii
                  example_client (lit "adobe") (lit "s3://bucket/feed")
                  (lit "2024-03-01")) with_old_hit_data) = inr tt
  /\ final (run reference
              (create_glue_table urlparse_plain gunzip_stored decode_ascii
                 example_client (lit "adobe") (lit "s3://bucket/feed")
                 (lit "2024-03-01")) with_old_hit_data) = with_old_hit_data
  /\ creates_made (trace (run reference
              (create_glue_table urlparse_plain gunzip_stored decode_ascii
                 example_client (lit "adobe") (lit "s3://bucket/feed")
                 (lit "2024-03-01")) with_old_hit_data)) = []
  /\ s3_fetches (trace (run reference
              (create_glue_table urlparse_plain gunzip_stored decode_ascii
                 example_client (lit "adobe") (lit "s3://bucket/feed")
                 (lit "2024-03-01")) with_old_hit_data)) = []
  /\ tables (cat (final (run reference
              (create_glue_table urlparse_plain gunzip_stored decode_ascii
                 example_client (lit "adobe") (lit "s3://bucket/feed")
                 (lit "2024-03-01")) with_old_hit_data)))
       !! (lit "adobe", hit_data) = Some old_hit_data_table.
Proof.
  split; [vm_compute; reflexivity|].
  apply (proj2 (existing_table_untouched urlparse_plain gunzip_stored decode_ascii)
           example_client (lit "adobe") (lit "s3://bucket/feed") (lit "2024-03-01")
           with_old_hit_data old_hit_data_table).
  vm_compute. reflexivity.
Defined.

(** ** Strings *)

Lemma lstrip_by_spec p s :
  exists l, s = l ++ lstrip_by p s
            /\ forallb p l = true
            /\ match lstrip_by p s with
               | c :: _ => p c = false
               | [] => True
               end.
Proof.
  induction s as [|c s (l & Hs & Hl & Hhd)]; simpl.
  - by exists [].
  - destruct (p c) eqn:Hc.
    + exists (c :: l). simpl. rewrite Hc, Hl. split; [by f_equal|done].
    + exists []. simpl. by rewrite Hc.
Qed.

Lemma rstrip_by_spec p s :
  exists r, s = rstrip_by p s ++ r
            /\ forallb p r = true
            /\ match rev (rstrip_by p s) with
               | c :: _ => p c = false
               | [] => True
               end.
Proof.
  unfold rstrip_by. destruct (lstrip_by_spec p (rev s)) as (l & Hs & Hl & Hhd).
  exists (rev l). split; [|split].
  - rewrite <- rev_app_distr, <- Hs. by rewrite rev_involutive.
  - rewrite forallb_forall in *. intros x Hx. apply Hl. by apply in_rev.
  - by rewrite rev_involutive.
Qed.

Lemma lstrip_by_all p s : forallb p s = true -> lstrip_by p s = [].
Proof.
  induction s as [|c s IH]; simpl; [done|].
  intros [Hc Hs]%andb_true_iff. rewrite Hc. auto.
Qed.


Lemma strip_whitespace s : forallb isspace s = true -> strip s = [].
Proof. intros H. unfold strip. by rewrite (lstrip_by_all _ _ H). Qed.

Lemma split_not_nil sep s : split sep s ≠ [].
Proof. destruct s as [|c s]; simpl; [done|]. by repeat case_match. Qed.

(** [split] cuts at each separator and nowhere else. *)
Lemma split_spec sep s :
  join sep (split sep s) = s
  /\ Forall (fun w => sep ∉ w) (split sep s).
Proof.
  induction s as [|c s [IHj IHf]]; simpl.
  - split; [done|]. repeat constructor. by intros ?%elem_of_nil.
  - destruct (N.eqb_spec c sep) as [->|Hne].
    + split.
      * pose proof (split_not_nil sep s).
        destruct (split sep s) as [|w ws] eqn:Hsp; [done|].
        change (join sep ([] :: w :: ws)) with (sep :: join sep (w :: ws)).
        by rewrite IHj.
      * constructor; [by intros ?%elem_of_nil | done].
    + destruct (split sep s) as [|w ws] eqn:Hsp.
      * by destruct (split_not_nil sep s).
      * apply Forall_cons in IHf as [Hw Hws]. split.
        -- simpl in *. destruct ws; simpl in *; by rewrite <- IHj.
        -- constructor; [|done]. intros [?|?]%elem_of_cons; [congruence|done].
Qed.

Lemma endswith_char_app c s t :
  t ≠ [] -> endswith_char c (s ++ t) = endswith_char c t.
Proof.
  intros Ht. unfold endswith_char. rewrite rev_app_distr.
  destruct (rev t) as [|x r] eqn:Hr; [|done].
  apply (f_equal (@rev _)) in Hr. rewrite rev_involutive in Hr. done.
Qed.

Lemma rstrip_by_not_endswith p s :
  match rev (rstrip_by p s) with
  | c :: _ => p c = false
  | [] => True
  end.
Proof. by destruct (rstrip_by_spec p s) as (r & _ & _ & H). Qed.

(** The handler's URIs do not end with a slash. *)
Lemma rstrip_slash_endswith s : endswith_char slash (rstrip (lit "/") s) = false.
Proof.
  unfold endswith_char, rstrip.
  pose proof (rstrip_by_not_endswith (in_chars (lit "/")) s) as H.
  destruct (rev (rstrip_by (in_chars (lit "/")) s)) as [|c r]; [done|].
  simpl in *. unfold in_chars in H. simpl in H. by rewrite orb_false_r in H.
Qed.

Lemma join_component_plain path b :
  path ≠ [] -> endswith_char slash path = false -> startswith_char slash b = false ->
  join_component path b = path ++ slash :: b.
Proof.
  intros Hp He Hb. unfold join_component.
  by rewrite Hb, bool_decide_eq_false_2, He.
Qed.



(** ** Resolving the headers and creating from them *)

Section Creating.
Context {W : Type} (E : environment W).
Variable urlparse : str -> url_object.
Variable gunzip : bytes -> exn + bytes.
Variable decode_utf8 : bytes -> exn + str.

Local Abbreviation get_headers := (get_headers urlparse gunzip decode_utf8) (only parsing).

Lemma run_get_headers base date (w : W) :
  run E (get_headers base date) w
  = {| trace :=
         [EvS3 (netloc (urlparse (header_file base date)))
            (lstrip (lit "/") (path (urlparse (header_file base date))))
            (env_get_object E (netloc (urlparse (header_file base date)))
               (lstrip (lit "/") (path (urlparse (header_file base date)))) w).1];
       result :=
         read_headers gunzip decode_utf8
           (env_get_object E (netloc (urlparse (header_file base date)))
              (lstrip (lit "/") (path (urlparse (header_file base date)))) w).1;
       final :=
         (env_get_object E (netloc (urlparse (header_file base date)))
            (lstrip (lit "/") (path (urlparse (header_file base date)))) w).2 |}.
Proof.
  unfold get_headers, get_s3_file, s3_get_object, read_headers. simpl.
  destruct (env_get_object E _ _ w) as [[e|body] w']; simpl; [done|].
  destruct (gunzip body) as [e|raw]; simpl; [done|].
  by destruct (decode_utf8 raw) as [e|text].
Qed.

Lemma run_does_table_exist cl db t (w : W) :
  run E (does_table_exist cl db t) w
  = {| trace := [EvGlue cl (get_table db t) (env_glue E cl (get_table db t) w).1];
       result := match (env_glue E cl (get_table db t) w).1 with
                 | inr _ => inr true
                 | inl EntityNotFoundException => inr false
                 | inl e => inl e
                 end;
       final := (env_glue E cl (get_table db t) w).2 |}.
Proof.
  unfold does_table_exist, glue. simpl.
  destruct (env_glue E cl (get_table db t) w) as [[e|[]] w1]; simpl; [|done].
  by destruct e.
Qed.

Lemma run_does_partition_exist cl db t vs (w : W) :
  run E (does_partition_exist cl db t vs) w
  = {| trace := [EvGlue cl (get_partition db t vs)
                   (env_glue E cl (get_partition db t vs) w).1];
       result := match (env_glue E cl (get_partition db t vs) w).1 with
                 | inr _ => inr true
                 | inl EntityNotFoundException => inr false
                 | inl e => inl e
                 end;
       final := (env_glue E cl (get_partition db t vs) w).2 |}.
Proof.
  unfold does_partition_exist, glue. simpl.
  destruct (env_glue E cl (get_partition db t vs) w) as [[e|[]] w1]; simpl; [|done].
  by destruct e.
Qed.

(** The table step when the table is absent and the headers resolve. *)
Lemma create_glue_table_absent cl db base date (w w1 : W) headers :
  env_glue E cl (get_table db hit_data) w = (inl EntityNotFoundException, w1) ->
  result (run E (get_headers base date) w1) = inr headers ->
  exists input a,
    trace (run E (create_glue_table urlparse gunzip decode_utf8 cl db base date) w)
    = EvGlue cl (get_table db hit_data) (inl EntityNotFoundException)
      :: EvPrint [PStr (lit "Creating hit_data table using partition " ++ date)]
      :: trace (run E (get_headers base date) w1)
      ++ [EvTime (env_time E (final (run E (get_headers base date) w1))).1;
          EvGlue cl (create_table db input) a]
    /\ result (run E (create_glue_table urlparse gunzip decode_utf8
                        cl db base date) w) = a
    /\ dict_get (lit "Name") input = Some (PStr hit_data)
    /\ dict_get (lit "StorageDescriptor") input
       = Some (storage_descriptor (map column headers)
                 (base ++ lit "/rawtsv/hit_data/"))
    /\ dict_get (lit "PartitionKeys") input
       = Some (PList [PDict [(lit "Name", PStr (lit "dt"));
                             (lit "Type", PStr (lit "string"))]])
    /\ dict_get (lit "Parameters") input = Some (PDict []).
Proof.
  intros Hget Hh. unfold create_glue_table.
  rewrite run_bind, run_does_table_exist, Hget. cbn [fst snd trace result final].
  rewrite run_bind. cbn [print run observe trace result final].
  rewrite run_bind, Hh. cbn [trace result final].
  rewrite run_bind. cbn [time_time run].
  destruct (env_time E _) as [t w3]. cbn [fst observe trace result final run].
  unfold glue. cbn [run].
  destruct (env_glue E cl _ w3) as [a w4].
  eexists _, a. cbn [observe trace result final run app].
  split; [by destruct a|]. split; [by destruct a|]. repeat split.
Qed.

(** The partition step when the partition is absent and the headers
    resolve. *)
Lemma add_hitdata_partition_absent cl db base date (w w1 : W) headers :
  env_glue E cl (get_partition db hit_data [date]) w
    = (inl EntityNotFoundException, w1) ->
  result (run E (get_headers base date) w1) = inr headers ->
  exists input,
    run E (add_hitdata_partition urlparse gunzip decode_utf8 cl db base date) w
    = {| trace :=
           EvGlue cl (get_partition db hit_data [date]) (inl EntityNotFoundException)
           :: trace (run E (get_headers base date) w1)
           ++ [EvPrint [PStr (lit "Creating partition " ++ date)];
               EvGlue cl (create_partition db hit_data input)
                 (env_glue E cl (create_partition db hit_data input)
                    (final (run E (get_headers base date) w1))).1];
         result :=
           (env_glue E cl (create_partition db hit_data input)
              (final (run E (get_headers base date) w1))).1;
         final :=
           (env_glue E cl (create_partition db hit_data input)
              (final (run E (get_headers base date) w1))).2 |}
    /\ values_of input = Some [date]
    /\ dict_get (lit "StorageDescriptor") input
       = Some (storage_descriptor (map column headers)
                 (base ++ lit "/rawtsv/hit_data/dt=" ++ date ++ lit "/"))
    /\ dict_get (lit "Parameters") input = Some (PDict []).
Proof.
  intros Hget Hh. unfold add_hitdata_partition.
  rewrite run_bind, run_does_partition_exist, Hget. cbn [fst snd trace result final].
  rewrite run_bind, Hh. cbn [trace result final].
  rewrite run_bind. cbn [print run observe trace result final].
  unfold glue. cbn [run].
  exists [(lit "Values", PList [PStr date]);
          (lit "StorageDescriptor",
           storage_descriptor (map column headers)
             (base ++ lit "/rawtsv/hit_data/dt=" ++ date ++ lit "/"));
          (lit "Parameters", PDict [])].
  split.
  - destruct (env_glue E cl (create_partition _ _ _) _) as [a w4].
    cbn [fst snd observe trace result final run app].
    destruct a; cbn [or_raise run observe trace result final]; reflexivity.
  - repeat split.
Qed.

End Creating.

(** ** The claims about headers, descriptors and partitions *)

Section HeaderClaims.
Context {W : Type} (E : environment W).
Variable urlparse : str -> url_object.
Variable gunzip : bytes -> exn + bytes.
Variable decode_utf8 : bytes -> exn + str.

Local Abbreviation get_headers := (get_headers urlparse gunzip decode_utf8) (only parsing).


(** C10: when the decoded content of the header file is empty or all
    whitespace, the header resolver returns the list of the one empty
    string, and the table and the partition created from it have the one
    column whose name is the empty string. *)
Theorem blank_header_file base date (w w' : W) body raw got_text :
  env_get_object E (netloc (urlparse (header_file base date)))
    (lstrip (lit "/") (path (urlparse (header_file base date)))) w = (inr body, w') ->
  gunzip body = inr raw ->
  decode_utf8 raw = inr got_text ->
  forallb isspace got_text = true ->
  result (run E (get_headers base date) w) = inr [[]]
  /\ (forall cl db (w0 : W),
        env_glue E cl (get_table db hit_data) w0 = (inl EntityNotFoundException, w) ->
        exists input a,
          glue_events (trace (run E (create_glue_table urlparse gunzip decode_utf8
                                       cl db base date) w0))
          = [(get_table db hit_data, inl EntityNotFoundException);
             (create_table db input, a)]
          /\ columns_of input
             = Some (PList [PDict [(lit "Type", PStr (lit "string"));
                                   (lit "Name", PStr [])]]))
  /\ (forall cl db (w0 : W),
        env_glue E cl (get_partition db hit_data [date]) w0
          = (inl EntityNotFoundException, w) ->
        exists input a,
          glue_events (trace (run E (add_hitdata_partition urlparse gunzip decode_utf8
                                       cl db base date) w0))
          = [(get_partition db hit_data [date], inl EntityNotFoundException);
             (create_partition db hit_data input, a)]
          /\ columns_of input
             = Some (PList [PDict [(lit "Type", PStr (lit "string"));
                                   (lit "Name", PStr [])]])).
Proof.
  intros Hobj Hgz Hdec Hblank.
  assert (result (run E (get_headers base date) w) = inr [[]]) as Hh.
  { rewrite (run_get_headers E). cbn [result]. rewrite Hobj. cbn [fst read_headers].
    by rewrite Hgz, Hdec, (strip_whitespace _ Hblank). }
  assert (glue_events (trace (run E (get_headers base date) w)) = []) as Hquiet.
  { by rewrite (run_get_headers E). }
  split; [done|]. split.
  - intros cl db w0 Hget.
    destruct (create_glue_table_absent E urlparse gunzip decode_utf8
                cl db base date w0 w [[]] Hget Hh)
      as (input & a & Htr & _ & _ & Hsd & _).
    exists input, a. split.
    + rewrite Htr. change (?x :: ?y :: ?t ++ ?u) with ([x; y] ++ t ++ u).
      by rewrite !glue_events_app, Hquiet.
    + unfold columns_of. by rewrite Hsd.
  - intros cl db w0 Hget.
    destruct (add_hitdata_partition_absent E urlparse gunzip decode_utf8
                cl db base date w0 w [[]] Hget Hh)
      as (input & Hrun & _ & Hsd & _).
    exists input, (env_glue E cl (create_partition db hit_data input)
                     (final (run E (get_headers base date) w))).1. split.
    + rewrite Hrun. cbn [trace]. change (?x :: ?t ++ ?u) with ([x] ++ t ++ u).
      by rewrite !glue_events_app, Hquiet.
    + unfold columns_of. by rewrite Hsd.
Qed.

(** C4: the storage descriptor made from a list of headers has one column
    per header, in header order, each of type [string]; its serde is the
    OpenCSV serde with the tab as separator; [BucketColumns] and
    [Parameters] are there, empty.  It is the descriptor of the [hit_data]
    table that the table step creates from the headers it resolved. *)
Theorem schema_fidelity :
  (forall (headers : list str) location,
      item "Columns" (storage_descriptor (map column headers) location)
      = Some (PList (map (fun name =>
                            PDict [(lit "Type", PStr (lit "string"));
                                   (lit "Name", PStr name)]) headers))
      /\ length (map column headers) = length headers
      /\ (forall i name, headers !! i = Some name ->
            map column headers !! i
            = Some (PDict [(lit "Type", PStr (lit "string")); (lit "Name", PStr name)]))
      /\ item "SerdeInfo" (storage_descriptor (map column headers) location)
         = Some (PDict
                   [(lit "SerializationLibrary",
                     PStr (lit "org.apache.hadoop.hive.serde2.OpenCSVSerde"));
                    (lit "Parameters", PDict [(lit "separatorChar", PStr [tab])])])
      /\ item "BucketColumns" (storage_descriptor (map column headers) location)
         = Some (PList [])
      /\ item "Parameters" (storage_descriptor (map column headers) location)
         = Some (PDict [])
      /\ item "Location" (storage_descriptor (map column headers) location)
         = Some (PStr location))
  /\ (forall cl db base date (w w1 : W) headers,
        env_glue E cl (get_table db hit_data) w = (inl EntityNotFoundException, w1) ->
        result (run E (get_headers base date) w1) = inr headers ->
        exists input a,
          glue_events (trace (run E (create_glue_table urlparse gunzip decode_utf8
                                       cl db base date) w))
          = [(get_table db hit_data, inl EntityNotFoundException);
             (create_table db input, a)]
          /\ dict_get (lit "StorageDescriptor") input
             = Some (storage_descriptor (map column headers)
                       (base ++ lit "/rawtsv/hit_data/"))
          /\ dict_get (lit "Parameters") input = Some (PDict [])).
Proof.
  split.
  - intros headers location. repeat split.
    + by rewrite length_map.
    + intros i name Hi. by rewrite list_lookup_fmap, Hi.
  - intros cl db base date w w1 headers Hget Hh.
    destruct (create_glue_table_absent E urlparse gunzip decode_utf8
                cl db base date w w1 headers Hget Hh)
      as (input & a & Htr & _ & _ & Hsd & _ & Hpar).
    exists input, a. split; [|done].
    rewrite Htr. change (?x :: ?y :: ?t ++ ?u) with ([x; y] ++ t ++ u).
    rewrite !glue_events_app. by rewrite (run_get_headers E).
Qed.

End HeaderClaims.

Section PartitionClaim.
Context {W : Type} (E : environment W).
Variable urlparse : str -> url_object.
Variable gunzip : bytes -> exn + bytes.
Variable decode_utf8 : bytes -> exn + str.

Local Abbreviation get_headers := (get_headers urlparse gunzip decode_utf8) (only parsing).
Local Abbreviation add_hitdata_partition :=
  (add_hitdata_partition urlparse gunzip decode_utf8) (only parsing).


End PartitionClaim.



Lemma blank_header_file_witness :
  forallb isspace blank_headers = true
  /\ result (run (serving (encode_ascii blank_headers))
               (get_headers urlparse_plain gunzip_stored decode_ascii
                  (lit "s3://bucket/feed") (lit "2024-03-01")) tt)
     = inr [[]].
Proof.
  split; [reflexivity|].
  apply (proj1 (blank_header_file (serving (encode_ascii blank_headers))
                  urlparse_plain gunzip_stored decode_ascii
                  (lit "s3://bucket/feed") (lit "2024-03-01") tt tt
                  (encode_ascii blank_headers) (encode_ascii blank_headers)
                  blank_headers
                  eq_refl eq_refl eq_refl eq_refl)).
Defined.

Lemma schema_fidelity_witness :
  item "Columns"
    (storage_descriptor (map column [lit "a"; lit "b"; lit "c"])
       (lit "s3://bucket/feed/rawtsv/hit_data/"))
  = Some (PList [PDict [(lit "Type", PStr (lit "string")); (lit "Name", PStr (lit "a"))];
                 PDict [(lit "Type", PStr (lit "string")); (lit "Name", PStr (lit "b"))];
                 PDict [(lit "Type", PStr (lit "string")); (lit "Name", PStr (lit "c"))]]).
Proof.
  exact (proj1 (proj1 (schema_fidelity (serving example_headers)
                         urlparse_plain gunzip_stored decode_ascii)
                  [lit "a"; lit "b"; lit "c"]
                  (lit "s3://bucket/feed/rawtsv/hit_data/"))).
Defined.


(** The partition isolation scenario, computed: the partition of the first
    day is where it was, and the partition of the second day has the
    columns of the second day's header file and its own location. *)
Lemma second_day_partition :
  (partitions (cat first_day) !! (lit "adobe", hit_data, [lit "2024-03-01"])
     ≫= location_of)
  = Some (PStr (lit "s3://bucket/feed/rawtsv/hit_data/dt=2024-03-01/"))
  /\ (partitions (cat (final (run reference
        (add_hitdata_partition urlparse_plain gunzip_stored decode_ascii
           example_client (lit "adobe") (lit "s3://bucket/feed") (lit "2024-03-02"))
        first_day))) !! (lit "adobe", hit_data, [lit "2024-03-02"])
      ≫= location_of)
     = Some (PStr (lit "s3://bucket/feed/rawtsv/hit_data/dt=2024-03-02/"))
  /\ (partitions (cat (final (run reference
        (add_hitdata_partition urlparse_plain gunzip_stored decode_ascii
           example_client (lit "adobe") (lit "s3://bucket/feed") (lit "2024-03-02"))
        first_day))) !! (lit "adobe", hit_data, [lit "2024-03-02"])
      ≫= columns_of)
     = Some (PList (map column [lit "x"; lit "y"])).
Proof. repeat split; vm_compute; reflexivity. Qed.

(** The header file is fetched once for the table and once more for the
    partition: when it changes in between, the table has the columns of the
    first fetch and the partition those of the second. *)
Lemma headers_fetched_again :
  length (s3_fetches (trace (run changing_headers example_handler 0))) = 2
  /\ (head (create_inputs (trace (run changing_headers example_handler 0)))
      ≫= columns_of)
     = Some (PList (map column [lit "a"; lit "b"; lit "c"]))
  /\ (last (create_inputs (trace (run changing_headers example_handler 0)))
      ≫= columns_of)
     = Some (PList (map column [lit "x"; lit "y"])).
Proof. repeat split; vm_compute; reflexivity. Qed.

(** The end-to-end scenario of the specification. *)
Lemma end_to_end :
  result (run reference example_handler fresh) = inr tt
  /\ length (creates_made (trace (run reference example_handler fresh))) = 15
  /\ (tables (cat (final (run reference example_handler fresh)))
        !! (lit "adobe", hit_data) ≫= columns_of)
     = Some (PList (map column [lit "a"; lit "b"; lit "c"]))
  /\ (partitions (cat (final (run reference example_handler fresh)))
        !! (lit "adobe", hit_data, [lit "2024-03-01"]) ≫= location_of)
     = Some (PStr (lit "s3://bucket/feed/rawtsv/hit_data/dt=2024-03-01/")).
Proof. repeat split; vm_compute; reflexivity. Qed.

(** ** Further properties of the handler and of its parts *)

Lemma lstrip_by_app_all p l s :
  forallb p l = true -> lstrip_by p (l ++ s) = lstrip_by p s.
Proof.
  induction l as [|c l IH]; simpl; [done|].
  intros [Hc Hl]%andb_true_iff. rewrite Hc. auto.
Qed.


Lemma forallb_repeat_slash n : forallb (in_chars (lit "/")) (repeat slash n) = true.
Proof. induction n as [|n IH]; simpl; [done|]. by rewrite IH. Qed.

Lemma rstrip_slashes s n : rstrip (lit "/") (s ++ repeat slash n) = rstrip (lit "/") s.
Proof.
  unfold rstrip, rstrip_by. rewrite rev_app_distr. f_equal.
  apply lstrip_by_app_all. rewrite forallb_forall. intros x Hx%in_rev.
  pose proof (forallb_repeat_slash n) as H. rewrite forallb_forall in H. auto.
Qed.

Lemma split_length sep s : length (split sep s) = S (count_char sep s).
Proof.
  unfold count_char. induction s as [|c s IH]; [done|].
  rewrite filter_cons. cbn [split]. destruct (N.eqb_spec c sep) as [->|Hne].
  - rewrite decide_True by done. cbn [length]. by rewrite IH.
  - rewrite decide_False by done.
    pose proof (split_not_nil sep s).
    destruct (split sep s) as [|w ws]; [done|]. by rewrite <- IH.
Qed.

Section Parts.
Context {W : Type} (E : environment W).
Variable urlparse : str -> url_object.
Variable gunzip : bytes -> exn + bytes.
Variable decode_utf8 : bytes -> exn + str.

Local Abbreviation handler := (handler urlparse gunzip decode_utf8) (only parsing).
Local Abbreviation get_headers := (get_headers urlparse gunzip decode_utf8) (only parsing).

(** The handler when one of its inputs is missing. *)
Lemma run_handler_missing_key os_environ event context (w : W) :
  (dict_get (lit "reportBase") event = None ->
   run E (handler os_environ event context) w
   = {| trace := [EvPrint [PStr (lit "Got event");
                           PDict (map (fun kv => (kv.1, PStr kv.2)) event)]];
        result := inl (KeyError (lit "reportBase")); final := w |})
  /\ (is_Some (dict_get (lit "reportBase") event) ->
      dict_get (lit "lookupURI") event = None ->
      run E (handler os_environ event context) w
      = {| trace := [EvPrint [PStr (lit "Got event");
                              PDict (map (fun kv => (kv.1, PStr kv.2)) event)]];
           result := inl (KeyError (lit "lookupURI")); final := w |})
  /\ (is_Some (dict_get (lit "reportBase") event) ->
      is_Some (dict_get (lit "lookupURI") event) ->
      dict_get (lit "reportDate") event = None ->
      run E (handler os_environ event context) w
      = {| trace := [EvPrint [PStr (lit "Got event");
                              PDict (map (fun kv => (kv.1, PStr kv.2)) event)]];
           result := inl (KeyError (lit "reportDate")); final := w |})
  /\ (is_Some (dict_get (lit "reportBase") event) ->
      is_Some (dict_get (lit "lookupURI") event) ->
      is_Some (dict_get (lit "reportDate") event) ->
      dict_get (lit "DB_NAME") os_environ = None ->
      run E (handler os_environ event context) w
      = {| trace := [EvPrint [PStr (lit "Got event");
                              PDict (map (fun kv => (kv.1, PStr kv.2)) event)]];
           result := inl (KeyError (lit "DB_NAME")); final := w |})
  /\ (is_Some (dict_get (lit "reportBase") event) ->
      is_Some (dict_get (lit "lookupURI") event) ->
      is_Some (dict_get (lit "reportDate") event) ->
      is_Some (dict_get (lit "DB_NAME") os_environ) ->
      dict_get (lit "AWS_REGION") os_environ = None ->
      run E (handler os_environ event context) w
      = {| trace := [EvPrint [PStr (lit "Got event");
                              PDict (map (fun kv => (kv.1, PStr kv.2)) event)]];
           result := inl (KeyError (lit "AWS_REGION")); final := w |}).
Proof.
  repeat split.
  - intros H1. unfold handler, getitem, print. simpl. by rewrite H1.
  - intros [rb H1] H2. unfold handler, getitem, print. simpl.
    rewrite H1. simpl. by rewrite H2.
  - intros [rb H1] [lu H2] H3. unfold handler, getitem, print. simpl.
    rewrite H1. simpl. rewrite H2. simpl. by rewrite H3.
  - intros [rb H1] [lu H2] [d H3] H4. unfold handler, getitem, print. simpl.
    rewrite H1. simpl. rewrite H2. simpl. rewrite H3. simpl. by rewrite H4.
  - intros [rb H1] [lu H2] [d H3] [db H4] H5.
    unfold handler, create_glue_client, getitem, print. simpl.
    rewrite H1. simpl. rewrite H2. simpl. rewrite H3. simpl. rewrite H4. simpl.
    by rewrite H5.
Qed.

(** X1: the handler reads [reportBase], [lookupURI] and [reportDate] from
    the event and then [DB_NAME] and [AWS_REGION] from the environment, in
    this order; at the first of them that is missing it raises [KeyError]
    of that key, having printed the event and called no service, and
    leaves the world as it was. *)
Theorem handler_missing_key os_environ event context (w : W) :
  (dict_get (lit "reportBase") event = None ->
   run E (handler os_environ event context) w
   = {| trace := [EvPrint [PStr (lit "Got event");
                           PDict (map (fun kv => (kv.1, PStr kv.2)) event)]];
        result := inl (KeyError (lit "reportBase")); final := w |})
  /\ (is_Some (dict_get (lit "reportBase") event) ->
      dict_get (lit "lookupURI") event = None ->
      run E (handler os_environ event context) w
      = {| trace := [EvPrint [PStr (lit "Got event");
                              PDict (map (fun kv => (kv.1, PStr kv.2)) event)]];
           result := inl (KeyError (lit "lookupURI")); final := w |})
  /\ (is_Some (dict_get (lit "reportBase") event) ->
      is_Some (dict_get (lit "lookupURI") event) ->
      dict_get (lit "reportDate") event = None ->
      run E (handler os_environ event context) w
      = {| trace := [EvPrint [PStr (lit "Got event");
                              PDict (map (fun kv => (kv.1, PStr kv.2)) event)]];
           result := inl (KeyError (lit "reportDate")); final := w |})
  /\ (is_Some (dict_get (lit "reportBase") event) ->
      is_Some (dict_get (lit "lookupURI") event) ->
      is_Some (dict_get (lit "reportDate") event) ->
      dict_get (lit "DB_NAME") os_environ = None ->
      run E (handler os_environ event context) w
      = {| trace := [EvPrint [PStr (lit "Got event");
                              PDict (map (fun kv => (kv.1, PStr kv.2)) event)]];
           result := inl (KeyError (lit "DB_NAME")); final := w |})
  /\ (is_Some (dict_get (lit "reportBase") event) ->
      is_Some (dict_get (lit "lookupURI") event) ->
      is_Some (dict_get (lit "reportDate") event) ->
      is_Some (dict_get (lit "DB_NAME") os_environ) ->
      dict_get (lit "AWS_REGION") os_environ = None ->
      run E (handler os_environ event context) w
      = {| trace := [EvPrint [PStr (lit "Got event");
                              PDict (map (fun kv => (kv.1, PStr kv.2)) event)]];
           result := inl (KeyError (lit "AWS_REGION")); final := w |}).
Proof. apply run_handler_missing_key. Qed.


(** X3: a list of headers that [get_headers] returns is never empty, none
    of its names contains a tab, and it has one name more than the trimmed
    text has tabs; joined with tabs it is the trimmed text. *)
Theorem headers_well_formed base date (w : W) headers :
  result (run E (get_headers base date) w) = inr headers ->
  headers ≠ []
  /\ Forall (fun name => tab ∉ name) headers
  /\ exists body raw got_text,
       (env_get_object E (netloc (urlparse (header_file base date)))
          (lstrip (lit "/") (path (urlparse (header_file base date)))) w).1 = inr body
       /\ gunzip body = inr raw
       /\ decode_utf8 raw = inr got_text
       /\ join tab headers = strip got_text
       /\ length headers = S (count_char tab (strip got_text)).
Proof.
  rewrite (run_get_headers E). cbn [result]. unfold read_headers.
  destruct (env_get_object E _ _ w).1 as [e|body]; [done|].
  destruct (gunzip body) as [e|raw] eqn:Hgz; [done|].
  destruct (decode_utf8 raw) as [e|text] eqn:Hdec; [done|].
  intros [= <-]. destruct (split_spec tab (strip text)) as [Hj Hf].
  split; [apply split_not_nil|]. split; [done|].
  exists body, raw, text. repeat split; try done. apply split_length.
Qed.

(** X4: a slash at the end of a non-empty base that has none makes no
    difference to [get_headers]: the path of the header file, and so the
    run, is the same. *)
Theorem get_headers_trailing_slash base date (w : W) :
  base ≠ [] ->
  endswith_char slash base = false ->
  header_file (base ++ [slash]) date = header_file base date
  /\ run E (get_headers (base ++ [slash]) date) w = run E (get_headers base date) w.
Proof.
  intros Hbase Hend.
  assert (header_file (base ++ [slash]) date = header_file base date) as Hpath.
  { unfold header_file, os_path_join. cbn [fold_left]. f_equal. f_equal. f_equal.
    rewrite (join_component_plain base) by done.
    unfold join_component. cbn [startswith_char lit].
    change (startswith_char slash (lit "rawtsv")) with false. cbv iota.
    rewrite (endswith_char_app slash base [slash]) by done.
    change (endswith_char slash [slash]) with true.
    rewrite orb_true_r. by rewrite <- app_assoc. }
  split; [done|]. unfold get_headers. by rewrite Hpath.
Qed.

(** X5: slashes at the end of [reportBase] and of [lookupURI] make no
    difference to what the handler does: apart from the event it prints,
    the run is the same. *)
Theorem trailing_slashes_ignored os_environ event event' context rb lu date n m (w : W) :
  dict_get (lit "reportBase") event = Some rb ->
  dict_get (lit "lookupURI") event = Some lu ->
  dict_get (lit "reportDate") event = Some date ->
  dict_get (lit "reportBase") event' = Some (rb ++ repeat slash n) ->
  dict_get (lit "lookupURI") event' = Some (lu ++ repeat slash m) ->
  dict_get (lit "reportDate") event' = Some date ->
  tail (trace (run E (handler os_environ event' context) w))
    = tail (trace (run E (handler os_environ event context) w))
  /\ result (run E (handler os_environ event' context) w)
     = result (run E (handler os_environ event context) w)
  /\ final (run E (handler os_environ event' context) w)
     = final (run E (handler os_environ event context) w).
Proof.
  intros H1 H2 H3 H1' H2' H3'.
  destruct (dict_get (lit "DB_NAME") os_environ) as [db|] eqn:Hdb.
  - destruct (dict_get (lit "AWS_REGION") os_environ) as [reg|] eqn:Hreg.
    + assert (inputs_read os_environ event {| region_name := reg |} db
                (rstrip (lit "/") rb) (rstrip (lit "/") lu) date) as Hin.
      { exists rb, lu, reg. done. }
      assert (inputs_read os_environ event' {| region_name := reg |} db
                (rstrip (lit "/") rb) (rstrip (lit "/") lu) date) as Hin'.
      { exists (rb ++ repeat slash n), (lu ++ repeat slash m), reg.
        by rewrite !rstrip_slashes. }
      by rewrite (run_handler E urlparse gunzip decode_utf8 _ _ _ _ _ _ _ _ _ Hin),
                 (run_handler E urlparse gunzip decode_utf8 _ _ _ _ _ _ _ _ _ Hin').
    + pose proof (run_handler_missing_key os_environ event context w)
        as (_ & _ & _ & _ & Hk).
      pose proof (run_handler_missing_key os_environ event' context w)
        as (_ & _ & _ & _ & Hk').
      rewrite Hk, Hk' by first [done | by eexists]. done.
  - pose proof (run_handler_missing_key os_environ event context w)
      as (_ & _ & _ & Hk & _).
    pose proof (run_handler_missing_key os_environ event' context w)
      as (_ & _ & _ & Hk' & _).
    rewrite Hk, Hk' by first [done | by eexists]. done.
Qed.

End Parts.

Lemma handler_missing_key_witness :
  run (serving example_headers)
    (handler urlparse_plain gunzip_stored decode_ascii
       [(lit "DB_NAME", lit "adobe")] example_event (PDict [])) tt
  = {| trace := [EvPrint [PStr (lit "Got event");
                          PDict (map (fun kv => (kv.1, PStr kv.2)) example_event)]];
       result := inl (KeyError (lit "AWS_REGION")); final := tt |}.
Proof.
  apply (proj2 (proj2 (proj2 (proj2
           (handler_missing_key (serving example_headers)
              urlparse_plain gunzip_stored decode_ascii
              [(lit "DB_NAME", lit "adobe")] example_event (PDict []) tt)))));
    first [by eexists | reflexivity].
Defined.

Lemma headers_well_formed_witness :
  result (run (serving example_headers)
            (get_headers urlparse_plain gunzip_stored decode_ascii
               (lit "s3://bucket/feed") (lit "2024-03-01")) tt)
  = inr [lit "a"; lit "b"; lit "c"]
  /\ [lit "a"; lit "b"; lit "c"] ≠ []
  /\ Forall (fun name => tab ∉ name) [lit "a"; lit "b"; lit "c"].
Proof.
  split; [vm_compute; reflexivity|].
  destruct (headers_well_formed (serving example_headers)
              urlparse_plain gunzip_stored decode_ascii
              (lit "s3://bucket/feed") (lit "2024-03-01") tt
              [lit "a"; lit "b"; lit "c"] eq_refl) as (Hne & Hf & _).
  exact (conj Hne Hf).
Defined.

Lemma get_headers_trailing_slash_witness :
  header_file (lit "s3://bucket/feed" ++ [slash]) (lit "2024-03-01")
  = header_file (lit "s3://bucket/feed") (lit "2024-03-01").
Proof.
  apply (proj1 (get_headers_trailing_slash (serving example_headers)
                  urlparse_plain gunzip_stored decode_ascii
                  (lit "s3://bucket/feed") (lit "2024-03-01") tt
                  ltac:(done) eq_refl)).
Defined.

Lemma trailing_slashes_ignored_witness :
  result (run reference
            (handler urlparse_plain gunzip_stored decode_ascii example_environ
               (event_of (lit "s3://bucket/feed//") (lit "s3://bucket/lookup/")
                  (lit "2024-03-01")) (PDict [])) fresh)
  = result (run reference example_handler fresh)
  /\ final (run reference
              (handler urlparse_plain gunzip_stored decode_ascii example_environ
                 (event_of (lit "s3://bucket/feed//") (lit "s3://bucket/lookup/")
                    (lit "2024-03-01")) (PDict [])) fresh)
     = final (run reference example_handler fresh).
Proof.
  apply (proj2 (trailing_slashes_ignored reference
                  urlparse_plain gunzip_stored decode_ascii example_environ
                  example_event
                  (event_of (lit "s3://bucket/feed//") (lit "s3://bucket/lookup/")
                     (lit "2024-03-01"))
                  (PDict []) (lit "s3://bucket/feed") (lit "s3://bucket/lookup")
                  (lit "2024-03-01") 2 1 fresh
                  eq_refl eq_refl eq_refl eq_refl eq_refl eq_refl)).
Defined.

(** ** Further properties against the reference catalog *)

Section ReferenceRuns.
Variable urlparse : str -> url_object.
Variable gunzip : bytes -> exn + bytes.
Variable decode_utf8 : bytes -> exn + str.

Local Abbreviation handler := (handler urlparse gunzip decode_utf8) (only parsing).
Local Abbreviation reconcile := (reconcile urlparse gunzip decode_utf8) (only parsing).
Local Abbreviation get_headers := (get_headers urlparse gunzip decode_utf8) (only parsing).





(** The partition step in a catalog that has the table and not the
    partition, the headers resolving. *)
Lemma add_hitdata_partition_creates cl db base date (w : world) headers :
  is_Some (tables (cat w) !! (db, hit_data)) ->
  partitions (cat w) !! (db, hit_data, [date]) = None ->
  stored_headers urlparse gunzip decode_utf8 (objects w) base date = inr headers ->
  exists input,
    result (run reference
              (add_hitdata_partition urlparse gunzip decode_utf8 cl db base date) w)
    = inr tt
    /\ creates_made (trace (run reference
              (add_hitdata_partition urlparse gunzip decode_utf8 cl db base date) w))
       = [create_partition db hit_data input]
    /\ cat (final (run reference
              (add_hitdata_partition urlparse gunzip decode_utf8 cl db base date) w))
       = {| databases := databases (cat w);
            tables := tables (cat w);
            partitions := <[(db, hit_data, [date]) := input]> (partitions (cat w)) |}
    /\ values_of input = Some [date]
    /\ columns_of input = Some (PList (map column headers))
    /\ location_of input
       = Some (PStr (base ++ lit "/rawtsv/hit_data/dt=" ++ date ++ lit "/")).
Proof.
  intros [t Ht] Hp Hh. destruct w as [c o k].
  unfold stored_headers, read_headers in Hh. cbn [objects cat] in *.
  unfold add_hitdata_partition, does_partition_exist, glue. simpl.
  rewrite Hp. simpl.
  unfold get_headers, get_s3_file, s3_get_object. simpl.
  destruct (o !! _) as [body|]; simpl; [|done].
  destruct (gunzip body) as [e|raw]; simpl; [done|].
  destruct (decode_utf8 raw) as [e|text]; simpl; [done|].
  injection Hh as <-. rewrite Ht, Hp. simpl.
  eexists. repeat split.
Qed.

(** X7: a run for a new date in a catalog that has the database, the
    [hit_data] table and the lookup tables makes one create call, for the
    partition of that date, and changes nothing else in the catalog. *)
Theorem next_day_adds_one_partition os_environ event context cl db base lookup date
    (w : world) headers :
  inputs_read os_environ event cl db base lookup date ->
  db ∈ databases (cat w) ->
  is_Some (tables (cat w) !! (db, hit_data)) ->
  Forall (fun name => is_Some (tables (cat w) !! (db, name))) generic_lookup_types ->
  partitions (cat w) !! (db, hit_data, [date]) = None ->
  stored_headers urlparse gunzip decode_utf8 (objects w) base date = inr headers ->
  exists input,
    result (run reference (handler os_environ event context) w) = inr tt
    /\ creates_made (trace (run reference (handler os_environ event context) w))
       = [create_partition db hit_data input]
    /\ cat (final (run reference (handler os_environ event context) w))
       = {| databases := databases (cat w);
            tables := tables (cat w);
            partitions := <[(db, hit_data, [date]) := input]> (partitions (cat w)) |}
    /\ values_of input = Some [date]
    /\ columns_of input = Some (PList (map column headers))
    /\ location_of input
       = Some (PStr (base ++ lit "/rawtsv/hit_data/dt=" ++ date ++ lit "/")).
Proof.
  intros Hin Hdb Ht Hl Hp Hh.
  rewrite (run_handler reference urlparse gunzip decode_utf8 _ _ _ _ _ _ _ _ _ Hin).
  cbn [observe trace result final]. rewrite creates_made_print.
  destruct (add_hitdata_partition_creates cl db base date w headers Ht Hp Hh)
    as (input & Hr4 & Hc4 & Hcat4 & Hshape).
  exists input.
  unfold reconcile, create_lookup_tables.
  destruct (for_each_lookup_present cl db lookup _ w Hl) as (Hr3 & Hf3 & Hc3).
  rewrite run_bind, (create_db_present _ _ _ Hdb). cbn [trace result final].
  rewrite run_bind, (create_glue_table_present _ _ _ _ _ _ _ _ Ht).
  cbn [trace result final].
  rewrite run_bind, Hr3, Hf3. cbn [trace result final].
  split; [done|]. split; [|done].
  rewrite !creates_made_app, Hc3, Hc4, !creates_made_probe by done. done.
Qed.


End ReferenceRuns.

(** X9: in a catalog that has the database, [create_lookup_tables]
    completes; afterwards each of the twelve lookup tables is in the
    catalog, a table that was there before is unchanged, and no database,
    no partition and no table of another name (so not [hit_data]) is
    touched. *)
Theorem create_lookup_tables_frame cl db uri (w : world) :
  db ∈ databases (cat w) ->
  result (run reference (create_lookup_tables cl db uri) w) = inr tt
  /\ length generic_lookup_types = 12
  /\ Forall (fun name =>
               is_Some (tables (cat (final (run reference
                          (create_lookup_tables cl db uri) w))) !! (db, name)))
       generic_lookup_types
  /\ databases (cat (final (run reference (create_lookup_tables cl db uri) w)))
     = databases (cat w)
  /\ partitions (cat (final (run reference (create_lookup_tables cl db uri) w)))
     = partitions (cat w)
  /\ (forall key t, tables (cat w) !! key = Some t ->
        tables (cat (final (run reference (create_lookup_tables cl db uri) w))) !! key
        = Some t)
  /\ (forall key, (forall name, name ∈ generic_lookup_types -> key ≠ (db, name)) ->
        tables (cat (final (run reference (create_lookup_tables cl db uri) w))) !! key
        = tables (cat w) !! key)
  /\ tables (cat (final (run reference (create_lookup_tables cl db uri) w)))
       !! (db, hit_data)
     = tables (cat w) !! (db, hit_data).
Proof.
  intros Hdb. unfold create_lookup_tables.
  destruct (for_each_lookup_done cl db uri generic_lookup_types w Hdb)
    as (Hr & Hd & Hp & Hframe & Hl).
  pose proof (reference_grows
                (for_each generic_lookup_types (create_lookup_table cl db uri)) w)
    as (_ & Hg & _).
  cbv zeta in *.
  split; [done|]. split; [done|]. split; [|split; [done|split; [done|split; [|split]]]].
  - apply Forall_forall. intros name Hname. specialize (Hl name Hname).
    destruct (tables (cat w) !! (db, name)); [by eexists|].
    destruct Hl as (input & -> & _). by eexists.
  - intros key t Hkey. by eapply lookup_weaken.
  - done.
  - apply Hframe. intros name Hname [= <-]. by apply hit_data_not_lookup in Hname.
Qed.

(** X10: against the reference catalog [create_db] never raises; the
    database is in the catalog afterwards, no other database is added, no
    table and no partition is touched, and a create call is made only when
    the database was not there. *)
Theorem create_db_ensures cl db (w : world) :
  result (run reference (create_db cl db) w) = inr tt
  /\ databases (cat (final (run reference (create_db cl db) w)))
     = {[db]} ∪ databases (cat w)
  /\ tables (cat (final (run reference (create_db cl db) w))) = tables (cat w)
  /\ partitions (cat (final (run reference (create_db cl db) w))) = partitions (cat w)
  /\ creates_made (trace (run reference (create_db cl db) w))
     = if decide (db ∈ databases (cat w)) then []
       else [create_database [(lit "Name", PStr db)]].
Proof.
  destruct w as [c o k]. unfold create_db, glue. simpl.
  destruct (decide (db ∈ databases c)) as [Hdb|Hdb]; simpl.
  - repeat split. symmetry. apply subseteq_union_1_L. by apply singleton_subseteq_l.
  - rewrite decide_False by done. simpl. repeat split.
Qed.

Lemma next_day_inputs_read :
  inputs_read example_environ next_day_event example_client
    (lit "adobe") (lit "s3://bucket/feed") (lit "s3://bucket/lookup")
    (lit "2024-03-02").
Proof.
  exists (lit "s3://bucket/feed"), (lit "s3://bucket/lookup"), (lit "us-east-1").
  repeat split; vm_compute; reflexivity.
Qed.


Lemma next_day_adds_one_partition_witness :
  exists input,
    result (run reference next_day_handler first_day) = inr tt
    /\ creates_made (trace (run reference next_day_handler first_day))
       = [create_partition (lit "adobe") hit_data input]
    /\ cat (final (run reference next_day_handler first_day))
       = {| databases := databases (cat first_day);
            tables := tables (cat first_day);
            partitions := <[(lit "adobe", hit_data, [lit "2024-03-02"]) := input]>
                            (partitions (cat first_day)) |}
    /\ values_of input = Some [lit "2024-03-02"]
    /\ columns_of input = Some (PList (map column [lit "x"; lit "y"]))
    /\ location_of input
       = Some (PStr (lit "s3://bucket/feed" ++ lit "/rawtsv/hit_data/dt="
                       ++ lit "2024-03-02" ++ lit "/")).
Proof.
  apply (next_day_adds_one_partition urlparse_plain gunzip_stored decode_ascii
           example_environ next_day_event (PDict []) example_client
           (lit "adobe") (lit "s3://bucket/feed") (lit "s3://bucket/lookup")
           (lit "2024-03-02") first_day [lit "x"; lit "y"] next_day_inputs_read).
  - refine (bool_decide_unpack _ _). vm_compute. exact I.
  - refine (bool_decide_unpack _ _). vm_compute. exact I.
  - refine (bool_decide_unpack _ _). vm_compute. exact I.
  - vm_compute. reflexivity.
  - vm_compute. reflexivity.
Defined.

Lemma create_lookup_tables_frame_witness :
  lit "adobe" ∈ databases (cat with_old_hit_data)
  /\ result (run reference
               (create_lookup_tables example_client (lit "adobe")
                  (lit "s3://bucket/lookup")) with_old_hit_data) = inr tt
  /\ tables (cat (final (run reference
               (create_lookup_tables example_client (lit "adobe")
                  (lit "s3://bucket/lookup")) with_old_hit_data)))
       !! (lit "adobe", hit_data)
     = tables (cat with_old_hit_data) !! (lit "adobe", hit_data).
Proof.
  assert (lit "adobe" ∈ databases (cat with_old_hit_data)) as Hdb.
  { refine (bool_decide_unpack _ _). vm_compute. exact I. }
  split; [exact Hdb|].
  destruct (create_lookup_tables_frame example_client (lit "adobe")
              (lit "s3://bucket/lookup") with_old_hit_data Hdb)
    as (Hr & _ & _ & _ & _ & _ & _ & Hhit).
  exact (conj Hr Hhit).
Defined.

(** ** What an invocation reads: the bucket and the clock *)

Lemma s3_fetches_app (t1 t2 : list event) :
  s3_fetches (t1 ++ t2) = s3_fetches t1 ++ s3_fetches t2.
Proof. apply omap_app. Qed.

Lemma stamped_app t1 t2 : stamped t1 -> stamped t2 -> stamped (t1 ++ t2).
Proof.
  intros H1 H2. induction H1 as [|t cl db input r tr Hin H IH|ev tr Hc Ht H IH]; simpl.
  - done.
  - by apply stamped_create.
  - by apply stamped_other.
Qed.

Ltac stamp :=
  repeat first [ apply stamped_nil
               | apply stamped_create; [reflexivity|]
               | apply stamped_other; [reflexivity|reflexivity|] ].

Ltac few := split; [repeat constructor | simpl; lia].

Section Reads.
Context {W : Type} (E : environment W).
Variable urlparse : str -> url_object.
Variable gunzip : bytes -> exn + bytes.
Variable decode_utf8 : bytes -> exn + str.

Local Abbreviation handler := (handler urlparse gunzip decode_utf8) (only parsing).
Local Abbreviation reconcile := (reconcile urlparse gunzip decode_utf8) (only parsing).
Local Abbreviation create_glue_table :=
  (create_glue_table urlparse gunzip decode_utf8) (only parsing).
Local Abbreviation add_hitdata_partition :=
  (add_hitdata_partition urlparse gunzip decode_utf8) (only parsing).

Lemma fetches_only_seq k n m (p q : prog unit) :
  fetches_only E k n p -> fetches_only E k m q ->
  fetches_only E k (n + m) (p ;;; q).
Proof.
  intros Hp Hq w. rewrite run_bind. destruct (Hp w) as [Hf Hl].
  destruct (result (run E p w)) as [e|[]]; cbn [trace].
  - split; [done | lia].
  - destruct (Hq (final (run E p w))) as [Hf' Hl'].
    rewrite s3_fetches_app, length_app. split; [by apply Forall_app | lia].
Qed.

Lemma create_db_fetches k cl db : fetches_only E k 0 (create_db cl db).
Proof.
  intros w. unfold create_db, glue, print. simpl.
  destruct (env_glue E cl (get_database db) w) as [[e|[]] w1]; simpl; [|few].
  destruct e; simpl; try few.
  destruct (env_glue E cl _ w1) as [[e|[]] w2]; simpl; few.
Qed.

Lemma create_lookup_table_fetches k cl db uri name :
  fetches_only E k 0 (create_lookup_table cl db uri name).
Proof.
  intros w. unfold create_lookup_table, does_table_exist, glue. simpl.
  destruct (env_glue E cl (get_table db name) w) as [[e|[]] w1]; simpl; [|few].
  destruct e; simpl; try few.
  destruct (env_time E w1) as [t w2]; simpl.
  destruct (env_glue E cl _ w2) as [[e|[]] w3]; simpl; few.
Qed.

Lemma for_each_lookup_fetches k cl db uri (names : list str) :
  fetches_only E k 0 (for_each names (create_lookup_table cl db uri)).
Proof.
  induction names as [|n names IH].
  - intros w. simpl. few.
  - change (for_each (n :: names) ?f) with (f n ;;; for_each names f).
    apply (fetches_only_seq k 0 0); [apply create_lookup_table_fetches | done].
Qed.

Lemma create_glue_table_fetches cl db base date :
  fetches_only E (header_object urlparse base date) 1
    (create_glue_table cl db base date).
Proof.
  intros w. unfold create_glue_table, does_table_exist, glue. simpl.
  destruct (env_glue E cl (get_table db hit_data) w) as [[e|[]] w1]; simpl; [|few].
  destruct e; simpl; try few.
  unfold get_headers, get_s3_file, s3_get_object. simpl.
  destruct (env_get_object E _ _ w1) as [[e|body] w2]; simpl; [few|].
  destruct (gunzip body) as [e|raw]; simpl; [few|].
  destruct (decode_utf8 raw) as [e|text]; simpl; [few|].
  destruct (env_time E w2) as [t w3]; simpl.
  destruct (env_glue E cl _ w3) as [[e|[]] w4]; simpl; few.
Qed.

Lemma add_hitdata_partition_fetches cl db base date :
  fetches_only E (header_object urlparse base date) 1
    (add_hitdata_partition cl db base date).
Proof.
  intros w. unfold add_hitdata_partition, does_partition_exist, glue. simpl.
  destruct (env_glue E cl (get_partition db hit_data [date]) w) as [[e|[]] w1];
    simpl; [|few].
  destruct e; simpl; try few.
  unfold get_headers, get_s3_file, s3_get_object. simpl.
  destruct (env_get_object E _ _ w1) as [[e|body] w2]; simpl; [few|].
  destruct (gunzip body) as [e|raw]; simpl; [few|].
  destruct (decode_utf8 raw) as [e|text]; simpl; [few|].
  destruct (env_glue E cl _ w2) as [[e|[]] w3]; simpl; few.
Qed.

Lemma reconcile_fetches cl db base lookup date :
  fetches_only E (header_object urlparse base date) 2
    (reconcile cl db base lookup date).
Proof.
  unfold reconcile.
  apply (fetches_only_seq _ 0 2); [apply create_db_fetches|].
  apply (fetches_only_seq _ 1 1); [apply create_glue_table_fetches|].
  apply (fetches_only_seq _ 0 1); [apply for_each_lookup_fetches|].
  apply add_hitdata_partition_fetches.
Qed.

(** X11: whatever the services answer, an invocation fetches from S3
    nothing but the header file of the date of the event under the report
    base of the event (its trailing slashes removed), and at most twice:
    the lookup location is never read. *)
Theorem handler_fetches_headers_only os_environ event context (w : W) :
  length (s3_fetches (trace (run E (handler os_environ event context) w))) <= 2
  /\ forall x,
       x ∈ s3_fetches (trace (run E (handler os_environ event context) w)) ->
       exists rb date,
         dict_get (lit "reportBase") event = Some rb
         /\ dict_get (lit "reportDate") event = Some date
         /\ x = header_object urlparse (rstrip (lit "/") rb) date.
Proof.
  destruct (handler_cases E urlparse gunzip decode_utf8 os_environ event context)
    as [(cl & db & base & lookup & date & Hin)|(k & Hk)].
  - rewrite (run_handler _ _ _ _ _ _ _ _ _ _ _ _ w Hin).
    cbn [observe trace]. change (s3_fetches (EvPrint ?a :: ?t)) with (s3_fetches t).
    destruct (reconcile_fetches cl db base lookup date w) as [Hall Hlen].
    split; [done|]. intros x Hx.
    destruct Hin as (rb & lu & reg & Hrb & Hlu & Hd & _ & _ & _ & -> & _).
    exists rb, date. repeat split; [done..|].
    by apply (proj1 (Forall_forall _ _) Hall).
  - rewrite Hk. cbn [trace]. split; [simpl; lia|].
    intros x Hx. by apply elem_of_nil in Hx.
Qed.

Lemma stamped_seq (p q : prog unit) :
  (forall w, stamped (trace (run E p w))) ->
  (forall w, stamped (trace (run E q w))) ->
  forall w, stamped (trace (run E (p ;;; q) w)).
Proof.
  intros Hp Hq w. rewrite run_bind.
  destruct (result (run E p w)) as [e|[]]; cbn [trace]; [done|].
  by apply stamped_app.
Qed.

Lemma create_db_stamped cl db (w : W) : stamped (trace (run E (create_db cl db) w)).
Proof.
  unfold create_db, glue, print. simpl.
  destruct (env_glue E cl (get_database db) w) as [[e|[]] w1]; simpl; [|stamp].
  destruct e; simpl; try stamp.
  destruct (env_glue E cl _ w1) as [[e|[]] w2]; simpl; stamp.
Qed.

Lemma create_lookup_table_stamped cl db uri name (w : W) :
  stamped (trace (run E (create_lookup_table cl db uri name) w)).
Proof.
  unfold create_lookup_table, does_table_exist, glue. simpl.
  destruct (env_glue E cl (get_table db name) w) as [[e|[]] w1]; simpl; [|stamp].
  destruct e; simpl; try stamp.
  destruct (env_time E w1) as [t w2]; simpl.
  destruct (env_glue E cl _ w2) as [[e|[]] w3]; simpl; stamp.
Qed.

Lemma for_each_lookup_stamped cl db uri (names : list str) (w : W) :
  stamped (trace (run E (for_each names (create_lookup_table cl db uri)) w)).
Proof.
  revert w. induction names as [|n names IH]; intros w.
  - simpl. stamp.
  - change (for_each (n :: names) ?f) with (f n ;;; for_each names f).
    apply stamped_seq; [apply create_lookup_table_stamped | done].
Qed.

Lemma create_glue_table_stamped cl db base date (w : W) :
  stamped (trace (run E (create_glue_table cl db base date) w)).
Proof.
  unfold create_glue_table, does_table_exist, glue. simpl.
  destruct (env_glue E cl (get_table db hit_data) w) as [[e|[]] w1]; simpl; [|stamp].
  destruct e; simpl; try stamp.
  unfold get_headers, get_s3_file, s3_get_object. simpl.
  destruct (env_get_object E _ _ w1) as [[e|body] w2]; simpl; [stamp|].
  destruct (gunzip body) as [e|raw]; simpl; [stamp|].
  destruct (decode_utf8 raw) as [e|text]; simpl; [stamp|].
  destruct (env_time E w2) as [t w3]; simpl.
  destruct (env_glue E cl _ w3) as [[e|[]] w4]; simpl; stamp.
Qed.

Lemma add_hitdata_partition_stamped cl db base date (w : W) :
  stamped (trace (run E (add_hitdata_partition cl db base date) w)).
Proof.
  unfold add_hitdata_partition, does_partition_exist, glue. simpl.
  destruct (env_glue E cl (get_partition db hit_data [date]) w) as [[e|[]] w1];
    simpl; [|stamp].
  destruct e; simpl; try stamp.
  unfold get_headers, get_s3_file, s3_get_object. simpl.
  destruct (env_get_object E _ _ w1) as [[e|body] w2]; simpl; [stamp|].
  destruct (gunzip body) as [e|raw]; simpl; [stamp|].
  destruct (decode_utf8 raw) as [e|text]; simpl; [stamp|].
  destruct (env_glue E cl _ w2) as [[e|[]] w3]; simpl; stamp.
Qed.

(** X12: whatever the services answer, an invocation reads the clock for
    the [LastAccessTime] of a [create_table] call and for nothing else:
    each reading is followed at once by a [create_table] call that carries
    it, no [create_table] call goes without one, and no partition or
    database carries a time. *)
Theorem handler_stamps_tables os_environ event context (w : W) :
  stamped (trace (run E (handler os_environ event context) w)).
Proof.
  destruct (handler_cases E urlparse gunzip decode_utf8 os_environ event context)
    as [(cl & db & base & lookup & date & Hin)|(k & Hk)].
  - rewrite (run_handler _ _ _ _ _ _ _ _ _ _ _ _ w Hin).
    cbn [observe trace]. apply stamped_other; [done..|].
    revert w. unfold reconcile.
    apply stamped_seq; [apply create_db_stamped|].
    apply stamped_seq; [apply create_glue_table_stamped|].
    apply stamped_seq; [apply for_each_lookup_stamped|].
    apply add_hitdata_partition_stamped.
  - rewrite Hk. cbn [trace]. stamp.
Qed.

End Reads.

(** ** Header files that cannot be read *)

Lemma no_fetch_ends gunzip decode_utf8 (tr : list event) (res : exn + unit) :
  s3_fetches tr = [] -> ends_at_failed_read gunzip decode_utf8 tr res.
Proof.
  intros H pre b k r post e Htr _. rewrite Htr, s3_fetches_app in H.
  simpl in H. by destruct (s3_fetches pre).
Qed.

Lemma fetches_none {W : Type} (E : environment W) k (p : prog unit) (w : W) :
  fetches_only E k 0 p -> s3_fetches (trace (run E p w)) = [].
Proof.
  intros H. destruct (H w) as [_ Hl]. apply length_zero_iff_nil. lia.
Qed.

Ltac locate_fetch pre Htr :=
  repeat (destruct pre as [|? pre]; simplify_eq/=).

Section FailedReads.
Context {W : Type} (E : environment W).
Variable urlparse : str -> url_object.
Variable gunzip : bytes -> exn + bytes.
Variable decode_utf8 : bytes -> exn + str.

Local Abbreviation handler := (handler urlparse gunzip decode_utf8) (only parsing).
Local Abbreviation reconcile := (reconcile urlparse gunzip decode_utf8) (only parsing).
Local Abbreviation create_glue_table :=
  (create_glue_table urlparse gunzip decode_utf8) (only parsing).
Local Abbreviation add_hitdata_partition :=
  (add_hitdata_partition urlparse gunzip decode_utf8) (only parsing).
Local Abbreviation ends := (ends_at_failed_read gunzip decode_utf8) (only parsing).

Lemma ends_seq (p q : prog unit) :
  (forall w, ends (trace (run E p w)) (result (run E p w))) ->
  (forall w, ends (trace (run E q w)) (result (run E q w))) ->
  forall w, ends (trace (run E (p ;;; q) w)) (result (run E (p ;;; q) w)).
Proof.
  intros Hp Hq w. rewrite run_bind. specialize (Hp w).
  destruct (result (run E p w)) as [e0|[]] eqn:Hres; cbn [trace result]; [done|].
  intros pre b k r post e Htr Hrd.
  apply app_eq_inv in Htr as [(mid & Hp1 & Hmid)|(mid & Hpre & Hq2)].
  - destruct mid as [|ev mid].
    + simpl in Hmid. by apply (Hq _ [] b k r post e).
    + simpl in Hmid. injection Hmid as <- ->.
      by destruct (Hp pre b k r mid e Hp1 Hrd) as [_ ?].
  - by apply (Hq _ mid b k r post e).
Qed.

Lemma create_glue_table_ends cl db base date (w : W) :
  ends (trace (run E (create_glue_table cl db base date) w))
    (result (run E (create_glue_table cl db base date) w)).
Proof.
  unfold create_glue_table, does_table_exist, glue. simpl.
  destruct (env_glue E cl (get_table db hit_data) w) as [[e|[]] w1]; simpl;
    [|by apply no_fetch_ends].
  destruct e; simpl; try (by apply no_fetch_ends).
  unfold get_headers, get_s3_file, s3_get_object. simpl.
  destruct (env_get_object E _ _ w1) as [[e|body] w2]; simpl.
  { intros pre b k r post e' Htr Hrd. locate_fetch pre Htr. done. }
  destruct (gunzip body) as [e|raw] eqn:Hg; simpl.
  { intros pre b k r post e' Htr Hrd. locate_fetch pre Htr.
    rewrite Hg in Hrd. by simplify_eq. }
  destruct (decode_utf8 raw) as [e|text] eqn:Hd; simpl.
  { intros pre b k r post e' Htr Hrd. locate_fetch pre Htr.
    rewrite Hg, Hd in Hrd. by simplify_eq. }
  destruct (env_time E w2) as [t w3]; simpl.
  destruct (env_glue E cl _ w3) as [[e|[]] w4]; simpl;
    intros pre b k r post e' Htr Hrd; locate_fetch pre Htr;
    rewrite Hg, Hd in Hrd; by simplify_eq.
Qed.

Lemma add_hitdata_partition_ends cl db base date (w : W) :
  ends (trace (run E (add_hitdata_partition cl db base date) w))
    (result (run E (add_hitdata_partition cl db base date) w)).
Proof.
  unfold add_hitdata_partition, does_partition_exist, glue. simpl.
  destruct (env_glue E cl (get_partition db hit_data [date]) w) as [[e|[]] w1];
    simpl; [|by apply no_fetch_ends].
  destruct e; simpl; try (by apply no_fetch_ends).
  unfold get_headers, get_s3_file, s3_get_object. simpl.
  destruct (env_get_object E _ _ w1) as [[e|body] w2]; simpl.
  { intros pre b k r post e' Htr Hrd. locate_fetch pre Htr. done. }
  destruct (gunzip body) as [e|raw] eqn:Hg; simpl.
  { intros pre b k r post e' Htr Hrd. locate_fetch pre Htr.
    rewrite Hg in Hrd. by simplify_eq. }
  destruct (decode_utf8 raw) as [e|text] eqn:Hd; simpl.
  { intros pre b k r post e' Htr Hrd. locate_fetch pre Htr.
    rewrite Hg, Hd in Hrd. by simplify_eq. }
  destruct (env_glue E cl _ w2) as [[e|[]] w3]; simpl;
    intros pre b k r post e' Htr Hrd; locate_fetch pre Htr;
    rewrite Hg, Hd in Hrd; by simplify_eq.
Qed.

Lemma reconcile_ends cl db base lookup date (w : W) :
  ends (trace (run E (reconcile cl db base lookup date) w))
    (result (run E (reconcile cl db base lookup date) w)).
Proof.
  revert w. unfold reconcile.
  apply ends_seq.
  { intros w. apply no_fetch_ends.
    apply (fetches_none E (lit "", lit "")), create_db_fetches. }
  apply ends_seq; [apply create_glue_table_ends|].
  apply ends_seq; [|apply add_hitdata_partition_ends].
  intros w. apply no_fetch_ends.
  apply (fetches_none E (lit "", lit "")), for_each_lookup_fetches.
Qed.

(** X13: a header file that cannot be read ends the invocation.  Whatever
    the services answer, when a fetch from S3 is answered by an exception,
    or by a body that is no gzip file, or by one whose content is not
    UTF-8, nothing follows that fetch (no call to the catalog, no print)
    and the invocation ends with that exception. *)
Theorem failed_read_aborts os_environ event context (w : W) pre b k r post e :
  trace (run E (handler os_environ event context) w) = pre ++ EvS3 b k r :: post ->
  read_headers gunzip decode_utf8 r = inl e ->
  post = [] /\ result (run E (handler os_environ event context) w) = inl e.
Proof.
  intros Htr Hrd.
  destruct (handler_cases E urlparse gunzip decode_utf8 os_environ event context)
    as [(cl & db & base & lookup & date & Hin)|(key & Hk)].
  - rewrite (run_handler _ _ _ _ _ _ _ _ _ _ _ _ w Hin) in Htr |- *.
    cbn [observe trace result] in Htr |- *.
    destruct pre as [|ev pre]; [done|]. simpl in Htr. injection Htr as _ Htr.
    by apply (reconcile_ends cl db base lookup date w pre b k r post e).
  - rewrite Hk in Htr. cbn [trace] in Htr. by destruct pre as [|? [|? ?]].
Qed.

End FailedReads.

Lemma failed_read_aborts_witness :
  result (run (serving not_text) example_handler tt) = inl UnicodeDecodeError.
Proof.
  refine (proj2 (failed_read_aborts (serving not_text)
            urlparse_plain gunzip_stored decode_ascii
            example_environ example_event (PDict []) tt
            (firstn 6 (trace (run (serving not_text) example_handler tt)))
            (lit "bucket")
            (lit "feed/rawtsv/column_headers/dt=2024-03-01/column_headers.tsv.gz")
            (inr not_text) [] UnicodeDecodeError _ _)).
  - vm_compute. reflexivity.
  - vm_compute. reflexivity.
Defined.

(** ** From the names to the file and back *)

Lemma split_app_sep sep w s :
  sep ∉ w -> split sep (w ++ sep :: s) = w :: split sep s.
Proof.
  induction w as [|c w IH]; intros Hw.
  - simpl. by rewrite N.eqb_refl.
  - apply not_elem_of_cons in Hw as [Hc Hw].
    cbn [app split]. destruct (N.eqb_spec c sep) as [->|_]; [done|].
    by rewrite IH.
Qed.

Lemma split_no_sep sep w : sep ∉ w -> split sep w = [w].
Proof.
  induction w as [|c w IH]; intros Hw; [done|].
  apply not_elem_of_cons in Hw as [Hc Hw].
  cbn [split]. destruct (N.eqb_spec c sep) as [->|_]; [done|].
  by rewrite IH.
Qed.

Lemma split_join sep (names : list str) :
  names ≠ [] -> Forall (fun name => sep ∉ name) names ->
  split sep (join sep names) = names.
Proof.
  induction names as [|w [|w' ws] IH]; intros Hne Hall; [done|..].
  - simpl. apply split_no_sep. by inversion Hall.
  - change (join sep (w :: w' :: ws)) with (w ++ sep :: join sep (w' :: ws)).
    inversion Hall as [|? ? Hw Hrest]; subst.
    rewrite split_app_sep by done. f_equal. by apply IH.
Qed.

Lemma lstrip_by_stop p s :
  match s with
  | c :: _ => p c = false
  | [] => True
  end ->
  lstrip_by p s = s.
Proof. destruct s as [|c s]; simpl; [done|]. by intros ->. Qed.

Lemma strip_padded l m r :
  forallb isspace l = true -> forallb isspace r = true -> trimmed m ->
  strip (l ++ m ++ r) = m.
Proof.
  intros Hl Hr [Hhd Hlast]. unfold strip. rewrite lstrip_by_app_all by done.
  destruct m as [|c m].
  - simpl. by rewrite (lstrip_by_all _ _ Hr).
  - rewrite (lstrip_by_stop isspace ((c :: m) ++ r)) by done.
    unfold rstrip_by. rewrite rev_app_distr.
    rewrite lstrip_by_app_all.
    + rewrite (lstrip_by_stop isspace (rev (c :: m))) by done.
      apply rev_involutive.
    + rewrite forallb_forall in *. intros x Hx. apply Hr. by apply in_rev.
Qed.

Section RoundTrip.
Context {W : Type} (E : environment W).
Variable urlparse : str -> url_object.
Variable gunzip : bytes -> exn + bytes.
Variable decode_utf8 : bytes -> exn + str.

Local Abbreviation get_headers := (get_headers urlparse gunzip decode_utf8) (only parsing).

(** X14: from the names to the file and back.  A header file whose text
    is a non-empty list of names joined by tabs, with any white space
    before and after, gives back exactly these names, provided that no
    name contains a tab and that the joined text neither starts nor ends
    with white space (white space inside a name, and empty names in the
    middle, are kept). *)
Theorem headers_round_trip base date (w : W) body raw l r (names : list str) :
  (env_get_object E (netloc (urlparse (header_file base date)))
     (lstrip (lit "/") (path (urlparse (header_file base date)))) w).1 = inr body ->
  gunzip body = inr raw ->
  decode_utf8 raw = inr (l ++ join tab names ++ r) ->
  forallb isspace l = true ->
  forallb isspace r = true ->
  names ≠ [] ->
  Forall (fun name => tab ∉ name) names ->
  trimmed (join tab names) ->
  result (run E (get_headers base date) w) = inr names.
Proof.
  intros Hget Hgz Hdec Hl Hr Hne Hall Htrim.
  rewrite (run_get_headers E). cbn [result]. unfold read_headers.
  rewrite Hget, Hgz, Hdec. f_equal.
  rewrite strip_padded by done. by apply split_join.
Qed.

End RoundTrip.

Lemma headers_round_trip_witness :
  result (run (serving padded_headers)
            (get_headers urlparse_plain gunzip_stored decode_ascii
               (lit "s3://bucket/feed") (lit "2024-03-01")) tt)
  = inr [lit "x"; lit "y z"].
Proof.
  apply (headers_round_trip (serving padded_headers)
           urlparse_plain gunzip_stored decode_ascii
           (lit "s3://bucket/feed") (lit "2024-03-01") tt
           padded_headers padded_headers
           (lit " " ++ [10%N]) [13%N; 10%N] [lit "x"; lit "y z"]).
  - reflexivity.
  - reflexivity.
  - vm_compute. reflexivity.
  - reflexivity.
  - reflexivity.
  - discriminate.
  - refine (bool_decide_unpack _ _). vm_compute. exact I.
  - split; vm_compute; reflexivity.
Defined.

(** ** The region of the calls *)

Lemma glue_clients_app (t1 t2 : list event) :
  glue_clients (t1 ++ t2) = glue_clients t1 ++ glue_clients t2.
Proof. apply omap_app. Qed.

Ltac same_client := simpl; repeat constructor.

Section Region.
Context {W : Type} (E : environment W).
Variable urlparse : str -> url_object.
Variable gunzip : bytes -> exn + bytes.
Variable decode_utf8 : bytes -> exn + str.

Local Abbreviation handler := (handler urlparse gunzip decode_utf8) (only parsing).
Local Abbreviation reconcile := (reconcile urlparse gunzip decode_utf8) (only parsing).
Local Abbreviation create_glue_table :=
  (create_glue_table urlparse gunzip decode_utf8) (only parsing).
Local Abbreviation add_hitdata_partition :=
  (add_hitdata_partition urlparse gunzip decode_utf8) (only parsing).

Lemma clients_seq cl (p q : prog unit) :
  (forall w, Forall (fun c => c = cl) (glue_clients (trace (run E p w)))) ->
  (forall w, Forall (fun c => c = cl) (glue_clients (trace (run E q w)))) ->
  forall w, Forall (fun c => c = cl) (glue_clients (trace (run E (p ;;; q) w))).
Proof.
  intros Hp Hq w. rewrite run_bind.
  destruct (result (run E p w)) as [e|[]]; cbn [trace]; [done|].
  rewrite glue_clients_app. by apply Forall_app.
Qed.

Lemma create_db_client cl db (w : W) :
  Forall (fun c => c = cl) (glue_clients (trace (run E (create_db cl db) w))).
Proof.
  unfold create_db, glue, print. simpl.
  destruct (env_glue E cl (get_database db) w) as [[e|[]] w1]; [|same_client].
  destruct e; try same_client. simpl.
  destruct (env_glue E cl _ w1) as [[e|[]] w2]; same_client.
Qed.

Lemma create_lookup_table_client cl db uri name (w : W) :
  Forall (fun c => c = cl)
    (glue_clients (trace (run E (create_lookup_table cl db uri name) w))).
Proof.
  unfold create_lookup_table, does_table_exist, glue. simpl.
  destruct (env_glue E cl (get_table db name) w) as [[e|[]] w1]; [|same_client].
  destruct e; try same_client. simpl.
  destruct (env_time E w1) as [t w2]; simpl.
  destruct (env_glue E cl _ w2) as [[e|[]] w3]; same_client.
Qed.

Lemma for_each_lookup_client cl db uri (names : list str) (w : W) :
  Forall (fun c => c = cl)
    (glue_clients (trace (run E (for_each names (create_lookup_table cl db uri)) w))).
Proof.
  revert w. induction names as [|n names IH]; intros w.
  - same_client.
  - change (for_each (n :: names) ?f) with (f n ;;; for_each names f).
    apply clients_seq; [apply create_lookup_table_client | done].
Qed.

Lemma create_glue_table_client cl db base date (w : W) :
  Forall (fun c => c = cl)
    (glue_clients (trace (run E (create_glue_table cl db base date) w))).
Proof.
  unfold create_glue_table, does_table_exist, glue. simpl.
  destruct (env_glue E cl (get_table db hit_data) w) as [[e|[]] w1]; [|same_client].
  destruct e; try same_client. simpl.
  unfold get_headers, get_s3_file, s3_get_object. simpl.
  destruct (env_get_object E _ _ w1) as [[e|body] w2]; simpl; [same_client|].
  destruct (gunzip body) as [e|raw]; simpl; [same_client|].
  destruct (decode_utf8 raw) as [e|text]; simpl; [same_client|].
  destruct (env_time E w2) as [t w3]; simpl.
  destruct (env_glue E cl _ w3) as [[e|[]] w4]; same_client.
Qed.

Lemma add_hitdata_partition_client cl db base date (w : W) :
  Forall (fun c => c = cl)
    (glue_clients (trace (run E (add_hitdata_partition cl db base date) w))).
Proof.
  unfold add_hitdata_partition, does_partition_exist, glue. simpl.
  destruct (env_glue E cl (get_partition db hit_data [date]) w) as [[e|[]] w1];
    [|same_client].
  destruct e; try same_client. simpl.
  unfold get_headers, get_s3_file, s3_get_object. simpl.
  destruct (env_get_object E _ _ w1) as [[e|body] w2]; simpl; [same_client|].
  destruct (gunzip body) as [e|raw]; simpl; [same_client|].
  destruct (decode_utf8 raw) as [e|text]; simpl; [same_client|].
  destruct (env_glue E cl _ w2) as [[e|[]] w3]; same_client.
Qed.

(** X15: every call to the catalog that an invocation makes, lookups and
    creates alike, goes through a client of the region that the
    environment variable [AWS_REGION] names. *)
Theorem handler_one_region os_environ event context (w : W) cl :
  cl ∈ glue_clients (trace (run E (handler os_environ event context) w)) ->
  dict_get (lit "AWS_REGION") os_environ = Some (region_name cl).
Proof.
  destruct (handler_cases E urlparse gunzip decode_utf8 os_environ event context)
    as [(cl0 & db & base & lookup & date & Hin)|(k & Hk)].
  - rewrite (run_handler _ _ _ _ _ _ _ _ _ _ _ _ w Hin).
    cbn [observe trace].
    change (glue_clients (EvPrint ?a :: ?t)) with (glue_clients t).
    intros Hcl.
    assert (Forall (fun c => c = cl0)
              (glue_clients (trace (run E (reconcile cl0 db base lookup date) w))))
      as Hall.
    { revert w Hcl. intros w _. revert w. unfold reconcile.
      apply clients_seq; [apply create_db_client|].
      apply clients_seq; [apply create_glue_table_client|].
      apply clients_seq; [apply for_each_lookup_client|].
      apply add_hitdata_partition_client. }
    rewrite (proj1 (Forall_forall _ _) Hall cl Hcl).
    by destruct Hin as (rb & lu & reg & _ & _ & _ & _ & Hreg & -> & _ & _).
  - rewrite Hk. cbn [trace]. by intros ?%elem_of_nil.
Qed.

End Region.

Lemma handler_one_region_witness :
  {| region_name := lit "us-east-1" |}
    ∈ glue_clients (trace (run reference example_handler fresh))
  /\ dict_get (lit "AWS_REGION") example_environ = Some (lit "us-east-1").
Proof.
  assert ({| region_name := lit "us-east-1" |}
            ∈ glue_clients (trace (run reference example_handler fresh))) as Hcl.
  { vm_compute. constructor. }
  split; [exact Hcl|].
  exact (handler_one_region reference urlparse_plain gunzip_stored decode_ascii
           example_environ example_event (PDict []) fresh
           {| region_name := lit "us-east-1" |} Hcl).
Defined.
